(** * Transformation resolution and dispatch engine

    A shallow embedding of [job.runner.py], [utils/file_manager.py] and
    [parsers/base_parser.py], and the properties of the engine proved
    over it.

    Python strings are modelled as [string], one [ascii] per code point
    (code points below 256, i.e. Latin-1).  JSON data is [json]; parser
    code is arbitrary code acting on an abstract world. *)

From Stdlib Require Import String Ascii List Bool Arith ZArith Lia.
Import ListNotations.

Local Open Scope string_scope.
Local Open Scope bool_scope.
Set Warnings "-register-all".

(* ================================================================== *)
(** * Strings: character classes, [str.lower], [str.replace], [re.sub] *)
(* ================================================================== *)

Definition code (c : ascii) : nat := nat_of_ascii c.

Definition in_range (lo hi c : ascii) : bool :=
  (code lo <=? code c)%nat && (code c <=? code hi)%nat.

(** The character classes [[A-Z]], [[a-z]] and [[0-9]] of the patterns. *)
Definition is_upper (c : ascii) : bool := in_range "A" "Z" c.
Definition is_lower (c : ascii) : bool := in_range "a" "z" c.
Definition is_digit (c : ascii) : bool := in_range "0" "9" c.

(** [.] matches every character but the line feed. *)
Definition is_newline (c : ascii) : bool := Ascii.eqb c "010".

(** [str.lower] on one code point below 256: the letters A-Z and the
    Latin-1 capitals U+00C0..U+00DE (U+00D7, the multiplication sign,
    apart) move up by 32; everything else is unchanged. *)
Definition lower_char (c : ascii) : ascii :=
  let n := code c in
  if is_upper c then ascii_of_nat (n + 32)
  else if (192 <=? n)%nat && (n <=? 222)%nat && negb (n =? 215)%nat
       then ascii_of_nat (n + 32)
       else c.

Fixpoint lower (s : string) : string :=
  match s with
  | EmptyString => EmptyString
  | String c tl => String (lower_char c) (lower tl)
  end.

Fixpoint skip (n : nat) (s : string) : string :=
  match n, s with
  | S n', String _ tl => skip n' tl
  | _, _ => s
  end.

(** An anchored matcher tries one match at the head of the subject and
    gives the replacement text and the unconsumed rest. *)
Definition matcher := string -> option (string * string).

(** Left-to-right substitution of all non-overlapping matches, as
    [re.sub] and [str.replace] do it: at each position either a match is
    replaced and the scan resumes after it, or the character is copied
    and the scan moves on by one. *)
Fixpoint sub_fuel (fuel : nat) (m : matcher) (s : string) : string :=
  match fuel with
  | O => s
  | S fuel' =>
      match s with
      | EmptyString => EmptyString
      | String c tl =>
          match m s with
          | Some (repl, rest) => repl ++ sub_fuel fuel' m rest
          | None => String c (sub_fuel fuel' m tl)
          end
      end
  end.

Definition sub (m : matcher) (s : string) : string :=
  sub_fuel (String.length s) m s.

(** The greedy run [[a-z]*] at the head of the subject. *)
Fixpoint span_lower (s : string) : string * string :=
  match s with
  | EmptyString => (EmptyString, EmptyString)
  | String c tl =>
      if is_lower c
      then let (run, rest) := span_lower tl in (String c run, rest)
      else (EmptyString, s)
  end.

(** [(.)([A-Z][a-z]+)] replaced by [\1_\2]. *)
Definition match_word : matcher := fun s =>
  match s with
  | String c (String u (String l rest)) =>
      if negb (is_newline c) && is_upper u && is_lower l
      then let (run, rest') := span_lower rest in
           Some (String c (String "_" (String u (String l run))), rest')
      else None
  | _ => None
  end.

(** [([a-z0-9])([A-Z])] replaced by [\1_\2]. *)
Definition match_hump : matcher := fun s =>
  match s with
  | String a (String u rest) =>
      if (is_lower a || is_digit a) && is_upper u
      then Some (String a (String "_" (String u EmptyString)), rest)
      else None
  | _ => None
  end.

Fixpoint starts_with (p s : string) : bool :=
  match p, s with
  | EmptyString, _ => true
  | String a p', String b s' => Ascii.eqb a b && starts_with p' s'
  | String _ _, EmptyString => false
  end.

(** A literal, non-empty [old] replaced by [new]. *)
Definition match_literal (old new : string) : matcher := fun s =>
  if starts_with old s then Some (new, skip (String.length old) s) else None.

Definition str_replace (old new s : string) : string :=
  sub (match_literal old new) s.

(** [job.runner.camel_to_snake] *)
Definition camel_to_snake (name : string) : string :=
  let s1 := sub match_word name in
  lower (sub match_hump s1).

(** [utils.file_manager.s3_to_local] *)
Definition s3_to_local (s3_path : string) : string :=
  str_replace "s3://" "s3/" s3_path.

(** [os.path.basename]: what follows the last slash. *)
Fixpoint has_slash (p : string) : bool :=
  match p with
  | EmptyString => false
  | String c tl => Ascii.eqb c "/" || has_slash tl
  end.

Fixpoint basename (p : string) : string :=
  match p with
  | EmptyString => EmptyString
  | String c tl =>
      if has_slash tl then basename tl
      else if Ascii.eqb c "/" then tl else p
  end.

(** Whether the remote-style prefix occurs somewhere in a path. *)
Fixpoint occurs_s3 (s : string) : bool :=
  match s with
  | EmptyString => false
  | String _ tl => starts_with "s3://" s || occurs_s3 tl
  end.

Fixpoint no_upper (s : string) : bool :=
  match s with
  | EmptyString => true
  | String c tl => negb (is_upper c) && no_upper tl
  end.

(** A matcher that consumes at least one character when it matches. *)
Definition consuming (m : matcher) : Prop :=
  forall s repl rest,
    m s = Some (repl, rest) -> String.length rest < String.length s.

(** The converted form of a name: no character that [str.lower] would
    change (lowercase, underscore-separated identifiers are of this form). *)
Definition is_converted (s : string) : bool :=
  String.eqb (lower s) s.

(* ================================================================== *)
(** * Values, exceptions and log messages                              *)
(* ================================================================== *)

(** What [json.load] produces.  Floats behave like integers in every
    operation of the engine (not subscriptable, not iterable, no
    attributes [get] or [replace]) and are covered by [JNum]. *)
Inductive json : Type :=
| JNull
| JBool (b : bool)
| JNum (z : Z)
| JStr (s : string)
| JList (l : list json)
| JDict (d : list (string * json)).

Fixpoint lookup {A : Type} (key : string) (d : list (string * A)) : option A :=
  match d with
  | [] => None
  | (k, v) :: d' => if String.eqb key k then Some v else lookup key d'
  end.

(** Python truth value of a JSON value. *)
Definition truthy (v : json) : bool :=
  match v with
  | JNull => false
  | JBool b => b
  | JNum z => negb (Z.eqb z 0)
  | JStr s => negb (String.eqb s "")
  | JList l => match l with [] => false | _ => true end
  | JDict d => match d with [] => false | _ => true end
  end.

(** [result is not False] *)
Definition is_not_False (v : json) : bool :=
  match v with
  | JBool false => false
  | _ => true
  end.

(** Exceptions derived from [Exception], the ones an [except Exception]
    clause handles.  [ImportError] includes [ModuleNotFoundError];
    [OtherError] is any class outside the ones named here. *)
Inductive exn : Type :=
| KeyError (key : string)
| TypeError (text : string)
| AttributeError (text : string)
| ImportError (text : string)
| ValueError (text : string)
| NotImplementedError (text : string)
| FileNotFoundError (text : string)
| JSONDecodeError (text : string)
| NoCredentialsError
| ClientError (text : string)
| OtherError (text : string).

Definition exn_text (e : exn) : string :=
  match e with
  | KeyError k => "'" ++ k ++ "'"
  | TypeError t | AttributeError t | ImportError t | ValueError t
  | NotImplementedError t | FileNotFoundError t | JSONDecodeError t
  | ClientError t | OtherError t => t
  | NoCredentialsError => "Unable to locate credentials"
  end.

Inductive res (A : Type) : Type :=
| Ret (a : A)
| Raise (e : exn).
Arguments Ret {A} a.
Arguments Raise {A} e.

(** [v[key]] for a string key. *)
Definition subscript (v : json) (key : string) : res json :=
  match v with
  | JDict d =>
      match lookup key d with
      | Some x => Ret x
      | None => Raise (KeyError key)
      end
  | JStr _ => Raise (TypeError "string indices must be integers")
  | JList _ => Raise (TypeError "list indices must be integers or slices, not str")
  | _ => Raise (TypeError "object is not subscriptable")
  end.

(** [v.get(key, default)] *)
Definition dict_get (v : json) (key : string) (default : json) : res json :=
  match v with
  | JDict d =>
      match lookup key d with
      | Some x => Ret x
      | None => Ret default
      end
  | _ => Raise (AttributeError "object has no attribute 'get'")
  end.

Fixpoint chars (s : string) : list json :=
  match s with
  | EmptyString => []
  | String c tl => JStr (String c EmptyString) :: chars tl
  end.

(** [for x in v]: the items a [for] loop visits. *)
Definition iterate (v : json) : res (list json) :=
  match v with
  | JList l => Ret l
  | JDict d => Ret (map (fun kv => JStr (fst kv)) d)
  | JStr s => Ret (chars s)
  | _ => Raise (TypeError "object is not iterable")
  end.

(** [**v]: the keyword arguments a mapping unpacks to. *)
Definition unpack (v : json) : res (list (string * json)) :=
  match v with
  | JDict d => Ret d
  | _ => Raise (TypeError "argument after ** must be a mapping")
  end.

(** [v + s] for a string [s]. *)
Definition str_add (v : json) (s : string) : res string :=
  match v with
  | JStr p => Ret (p ++ s)
  | _ => Raise (TypeError "unsupported operand type(s) for +")
  end.

(** [s3_to_local] applied to an arbitrary value: only [str] has [replace]. *)
Definition s3_to_local_of (s3_path : json) : res string :=
  match s3_path with
  | JStr s => Ret (s3_to_local s)
  | _ => Raise (AttributeError "object has no attribute 'replace'")
  end.

(** The attribute name [hasattr] and [getattr] accept. *)
Definition attr_name (v : json) : res string :=
  match v with
  | JStr s => Ret s
  | _ => Raise (TypeError "attribute name must be string")
  end.

(** One constructor per [log] call of the sources, with the values its
    f-string interpolates. *)
Inductive msg : Type :=
| MsgStarting
| MsgProcessing (operation_name : json)
| MsgSucceeded (operation_name : json)
| MsgFailed (operation_name : json)
| MsgJobCompleted
| MsgDefinitionNotFound
| MsgInvalidJSON (e : exn)
| MsgUnexpected (e : exn)
| MsgExecutionError (e : exn)
| MsgError (e : exn)
| MsgLocalLoaded (module_name : string)
| MsgImportFailed (class_name : string) (e : exn)
| MsgClassNotFound (class_name : string) (e : exn)
| MsgCreateFailed (class_name : string) (e : exn)
| MsgS3Loaded (parser_file_name : string)
| MsgS3NotFound (parser_file_name : string) (scripts_path : json)
| MsgS3Unavailable (parser_file_name : string).

(** A line of the run log: written by the engine, or by parser code. *)
Inductive log_entry : Type :=
| EngineLog (m : msg) (error : bool)
| PluginLog (text : string) (error : bool).

(** The per-transformation outcomes a run log shows, in order. *)
Fixpoint outcomes (lg : list log_entry) : list bool :=
  match lg with
  | [] => []
  | EngineLog (MsgSucceeded _) _ :: lg' => true :: outcomes lg'
  | EngineLog (MsgFailed _) _ :: lg' => false :: outcomes lg'
  | _ :: lg' => outcomes lg'
  end.

(* ================================================================== *)
(** * The engine                                                       *)
(* ================================================================== *)

Declare Scope engine_scope.
Delimit Scope engine_scope with engine.

Section Engine.

(** What parser code and the artifact store act on: the file system and
    whatever else lives outside the engine. *)
Variable World : Type.

(** Code outside the engine (parser classes, module loading, the remote
    store): it returns or raises, changes the world and may write log
    lines. *)
Definition Plug (A : Type) : Type :=
  World -> res A * World * list (string * bool).

(** Engine code: the same, with the engine's own log lines. *)
Definition M (A : Type) : Type :=
  World -> res A * World * list log_entry.

Definition ret {A : Type} (a : A) : M A :=
  fun w => (Ret a, w, []).

Definition raise {A : Type} (e : exn) : M A :=
  fun w => (Raise e, w, []).

Definition bind {A B : Type} (m : M A) (f : A -> M B) : M B :=
  fun w =>
    match m w with
    | (Ret a, w1, l1) => let '(r, w2, l2) := f a w1 in (r, w2, (l1 ++ l2)%list)
    | (Raise e, w1, l1) => (Raise e, w1, l1)
    end.

(** [try: body except Exception as e: handler e] *)
Definition try_except {A : Type} (body : M A) (handler : exn -> M A) : M A :=
  fun w =>
    match body w with
    | (Raise e, w1, l1) => let '(r, w2, l2) := handler e w1 in (r, w2, (l1 ++ l2)%list)
    | (Ret a, w1, l1) => (Ret a, w1, l1)
    end.

Definition log (m : msg) (error : bool) : M unit :=
  fun w => (Ret tt, w, [EngineLog m error]).

Definition lift {A : Type} (r : res A) : M A :=
  fun w => (r, w, []).

Definition plugin_entry (l : string * bool) : log_entry :=
  PluginLog (fst l) (snd l).

Definition run_plugin {A : Type} (p : Plug A) : M A :=
  fun w => let '(r, w', l) := p w in (r, w', map plugin_entry l).

Definition plug_ret {A : Type} (a : A) : Plug A :=
  fun w => (Ret a, w, []).

Definition plug_raise {A : Type} (e : exn) : Plug A :=
  fun w => (Raise e, w, []).

Local Notation "x <- m ;; k" := (bind m (fun x => k))
  (at level 61, m at next level, right associativity) : engine_scope.
Local Notation "m ;; k" := (bind m (fun _ => k))
  (at level 61, right associativity) : engine_scope.
Local Open Scope engine_scope.

(** An attribute of an object: a plain value, or something callable with
    positional and keyword arguments. *)
Inductive attr : Type :=
| ADatum (v : json)
| AMethod (f : list json -> list (string * json) -> Plug json).

(** What [create_parser] can hand to the executor: [None], a boolean, or
    an object given by its attributes. *)
Inductive pyobj : Type :=
| ONone
| OBool (b : bool)
| OInst (members : string -> option attr).

(** A parser class: calling it with the source file, the output
    directory and keyword arguments runs its constructor. *)
Record pyclass : Type := {
  construct : string -> string -> list (string * json) -> Plug pyobj
}.

(** A module attribute: a class, or a value that is not callable. *)
Inductive mattr : Type :=
| MClass (c : pyclass)
| MDatum (v : json).

Definition pymodule : Type := string -> option mattr.

(** The collaborators of the engine.
    - [temp_path name] is [os.path.join(tempfile.gettempdir(), name)];
    - [download_file bucket key path] is [boto3.client('s3')] followed by
      [download_file];
    - [exec_module name path] loads the module of a file
      ([spec_from_file_location], [module_from_spec], [exec_module]);
    - [import_module name] is [importlib.import_module];
    - [bool_getattr b] is the attribute table of the boolean [b]. *)
Record Env : Type := {
  temp_path : string -> string;
  download_file : json -> string -> string -> Plug unit;
  exec_module : string -> string -> Plug pymodule;
  import_module : string -> Plug pymodule;
  bool_getattr : bool -> string -> option attr
}.

Variable env : Env.

(** [getattr(o, name)], [None] when [hasattr(o, name)] is false. *)
Definition obj_getattr (o : pyobj) (name : string) : option attr :=
  match o with
  | ONone => None
  | OBool b => bool_getattr env b name
  | OInst members => members name
  end.

(** Calling an attribute with positional and keyword arguments. *)
Definition call (a : attr) (args : list json) (kwargs : list (string * json))
  : M json :=
  match a with
  | AMethod f => run_plugin (f args kwargs)
  | ADatum _ => raise (TypeError "object is not callable")
  end.

(** [c(source_file, output_directory, **kwargs)] *)
Definition call_class (c : mattr) (source_file output_directory : string)
    (kwargs : list (string * json)) : M pyobj :=
  match c with
  | MClass k => run_plugin (construct k source_file output_directory kwargs)
  | MDatum _ => raise (TypeError "object is not callable")
  end.

(** Truth value of what [load_parser_from_s3] returned. *)
Definition truthy_class (c : option mattr) : bool :=
  match c with
  | None => false
  | Some (MClass _) => true
  | Some (MDatum v) => truthy v
  end.

(** [utils.file_manager.download_from_s3] *)
Definition download_from_s3 (parser_file_name : string) (kwargs : json)
  : M string :=
  try_except
    (bucket_name <- lift (subscript kwargs "scripts_bucket") ;;
     scripts_path <- lift (subscript kwargs "scripts_path") ;;
     object_key <- lift (str_add scripts_path (parser_file_name ++ ".py")) ;;
     let filename := basename object_key in
     let local_path := temp_path env ("s3_download_" ++ filename) in
     run_plugin (download_file env bucket_name object_key local_path) ;;
     ret local_path)
    (fun e =>
       match e with
       | NoCredentialsError =>
           raise (OtherError
             "AWS credentials not found. Please configure your AWS credentials.")
       | ClientError _ =>
           raise (OtherError ("Error downloading from S3: " ++ exn_text e))
       | _ =>
           raise (OtherError
             ("Unexpected error downloading from S3: " ++ exn_text e))
       end).

(** The [try] suite of [load_parser_from_s3]; the result [None] is
    Python's [None]. *)
Definition load_parser_from_s3_body (parser_file_name class_name : string)
    (kwargs : json) : M (option mattr) :=
  download_from_s3 "base_parser" kwargs ;;
  local_file_path <- download_from_s3 parser_file_name kwargs ;;
  let module_name :=
    "s3_parser_" ++ str_replace ".py" "" (basename local_file_path) in
  module <- run_plugin (exec_module env module_name local_file_path) ;;
  match module class_name with
  | Some parser_class =>
      log (MsgS3Loaded parser_file_name) false ;;
      ret (Some parser_class)
  | None =>
      scripts_path <- lift (subscript kwargs "scripts_path") ;;
      log (MsgS3NotFound parser_file_name scripts_path) false ;;
      ret None
  end.

(** [utils.file_manager.load_parser_from_s3] *)
Definition load_parser_from_s3 (parser_file_name class_name : string)
    (kwargs : json) : M (option mattr) :=
  try_except
    (load_parser_from_s3_body parser_file_name class_name kwargs)
    (fun e =>
       log (MsgS3Unavailable parser_file_name) false ;;
       ret None).

(** The first [try] suite of [create_parser]. *)
Definition resolve_paths (obj : json) : M (string * string * json) :=
  origin <- lift (subscript obj "origin") ;;
  source_file <- lift (s3_to_local_of origin) ;;
  destiny <- lift (subscript obj "destiny") ;;
  output_directory <- lift (s3_to_local_of destiny) ;;
  parser_class_name <- lift (subscript obj "classname") ;;
  ret (source_file, output_directory, parser_class_name).

(** The local branch of [create_parser]: the [try] suite and its three
    handlers. *)
Definition create_local (module_name parser_class_name : string)
    (source_file output_directory : string) (options : json) : M pyobj :=
  try_except
    (module <- run_plugin (import_module env ("parsers." ++ module_name)) ;;
     match module parser_class_name with
     | None => raise (AttributeError "module has no attribute")
     | Some parser_class =>
         kwargs <- lift (unpack options) ;;
         call_class parser_class source_file output_directory kwargs
     end)
    (fun e =>
       match e with
       | ImportError _ =>
           log (MsgImportFailed parser_class_name e) true ;; ret ONone
       | AttributeError _ =>
           log (MsgClassNotFound parser_class_name e) true ;; ret ONone
       | _ =>
           log (MsgCreateFailed parser_class_name e) true ;; ret ONone
       end).

(** [job.runner.create_parser] *)
Definition create_parser (obj options : json) : M pyobj :=
  paths <- try_except
             (p <- resolve_paths obj ;; ret (Some p))
             (fun e => log (MsgError e) true ;; ret None) ;;
  match paths with
  | None => ret (OBool false)
  | Some (source_file, output_directory, parser_class_name) =>
      match parser_class_name with
      | JStr class_name =>
          let module_name := camel_to_snake class_name in
          parser_class <- load_parser_from_s3 module_name class_name options ;;
          match parser_class with
          | Some c =>
              if truthy_class parser_class
              then call_class c source_file output_directory []
              else log (MsgLocalLoaded module_name) false ;;
                   create_local module_name class_name
                     source_file output_directory options
          | None =>
              log (MsgLocalLoaded module_name) false ;;
              create_local module_name class_name
                source_file output_directory options
          end
      | _ => raise (TypeError "expected string or bytes-like object")
      end
  end.

(** The dispatch of [execute_transformation] on the created parser. *)
Definition dispatch (parser : pyobj) (operation_name options : json) : M bool :=
  match parser with
  | ONone => ret false
  | _ =>
      match obj_getattr parser "run_operation" with
      | Some run_operation =>
          result <- call run_operation [operation_name] [] ;;
          ret (is_not_False result)
      | None =>
          name <- lift (attr_name operation_name) ;;
          match obj_getattr parser name with
          | Some method =>
              kwargs <- lift (unpack options) ;;
              call method [] kwargs ;;
              ret true
          | None =>
              match obj_getattr parser "process" with
              | Some process => call process [] [] ;; ret true
              | None => raise (AttributeError "object has no attribute 'process'")
              end
          end
      end
  end.

(** The [try] suite of [execute_transformation]. *)
Definition execute_transformation_body (obj operation_name options : json)
  : M bool :=
  parser <- create_parser obj options ;;
  dispatch parser operation_name options.

(** [job.runner.execute_transformation] *)
Definition execute_transformation (obj operation_name options : json)
  : M bool :=
  try_except
    (execute_transformation_body obj operation_name options)
    (fun e => log (MsgExecutionError e) true ;; ret false).

(** The body of the [for] loop of [run_job]. *)
Definition run_transformation (transformation : json) : M unit :=
  obj <- lift (subscript transformation "object") ;;
  options <- lift (dict_get transformation "kwargs" (JDict [])) ;;
  operation_name <- lift (subscript obj "parser") ;;
  log (MsgProcessing operation_name) false ;;
  success <- execute_transformation obj operation_name options ;;
  if success
  then log (MsgSucceeded operation_name) false
  else log (MsgFailed operation_name) true.

Fixpoint for_each {A : Type} (body : A -> M unit) (items : list A) : M unit :=
  match items with
  | [] => ret tt
  | x :: rest => body x ;; for_each body rest
  end.

(** [job.runner.run_job]; [definition] is what opening and parsing
    [job_definition.json] gives. *)
Definition run_job (definition : res json) : M unit :=
  try_except
    (job <- lift definition ;;
     log MsgStarting false ;;
     transformations <- lift (subscript job "transformations") ;;
     items <- lift (iterate transformations) ;;
     for_each run_transformation items ;;
     log MsgJobCompleted false)
    (fun e =>
       match e with
       | FileNotFoundError _ => log MsgDefinitionNotFound true
       | JSONDecodeError _ => log (MsgInvalidJSON e) true
       | _ => log (MsgUnexpected e) true
       end).

(** ** The base contract, [parsers.base_parser.BaseParser] *)

(** An instance of a parser class: what [get_available_operations]
    returns and the attributes of the instance. *)
Record parser_self : Type := {
  get_available_operations : list string;
  self_getattr : string -> option attr
}.

(** [operation_name in self.get_available_operations()] *)
Definition is_available (self : parser_self) (operation_name : json) : bool :=
  match operation_name with
  | JStr name => existsb (String.eqb name) (get_available_operations self)
  | _ => false
  end.

(** [getattr(self, operation_name, None)], kept when it is true and
    callable. *)
Definition callable_member (self : parser_self) (operation_name : json)
  : option (list json -> list (string * json) -> Plug json) :=
  match operation_name with
  | JStr name =>
      match self_getattr self name with
      | Some (AMethod method) => Some method
      | _ => None
      end
  | _ => None
  end.

(** [BaseParser.run_operation] *)
Definition run_operation (self : parser_self) (operation_name : json)
  : Plug json :=
  if negb (is_available self operation_name)
  then plug_raise (ValueError "Parser not available")
  else match callable_member self operation_name with
       | Some method => method [] []
       | None => plug_raise (NotImplementedError "Parser not implemented")
       end.

End Engine.

Arguments ret {World A} a _.
Arguments raise {World A} e _.
Arguments bind {World A B} m f _.
Arguments try_except {World A} body handler _.
Arguments log {World} m error _.
Arguments lift {World A} r _.
Arguments run_plugin {World A} p _.
Arguments plug_ret {World A} a _.
Arguments plug_raise {World A} e _.
Arguments ADatum {World} v.
Arguments AMethod {World} f.
Arguments ONone {World}.
Arguments OBool {World} b.
Arguments OInst {World} members.
Arguments Build_pyclass {World} construct.
Arguments construct {World} p _ _ _ _.
Arguments MClass {World} c.
Arguments MDatum {World} v.
Arguments Build_Env {World} _ _ _ _ _.
Arguments temp_path {World} e _.
Arguments download_file {World} e _ _ _ _.
Arguments exec_module {World} e _ _ _.
Arguments import_module {World} e _ _.
Arguments bool_getattr {World} e _ _.
Arguments obj_getattr {World} env o name.
Arguments call {World} a args kwargs _.
Arguments call_class {World} c source_file output_directory kwargs _.
Arguments truthy_class {World} c.
Arguments download_from_s3 {World} env parser_file_name kwargs _.
Arguments load_parser_from_s3_body {World} env parser_file_name class_name kwargs _.
Arguments load_parser_from_s3 {World} env parser_file_name class_name kwargs _.
Arguments resolve_paths {World} obj _.
Arguments create_local {World} env _ _ _ _ _ _.
Arguments create_parser {World} env obj options _.
Arguments dispatch {World} env parser operation_name options _.
Arguments execute_transformation_body {World} env obj operation_name options _.
Arguments execute_transformation {World} env obj operation_name options _.
Arguments run_transformation {World} env transformation _.
Arguments for_each {World A} body items _.
Arguments run_job {World} env definition _.
Arguments Build_parser_self {World} _ _.
Arguments get_available_operations {World} p.
Arguments self_getattr {World} p _.
Arguments is_available {World} self operation_name.
Arguments callable_member {World} self operation_name.
Arguments run_operation {World} self operation_name _.


(** A job description with the given transformation entries. *)
Definition job_of (entries : list json) : json :=
  JDict [("transformations", JList entries)].

(** An entry the loop of [run_job] can read: a mapping whose [object] is
    a mapping with the key [parser]. *)
Definition well_formed (transformation : json) : bool :=
  match subscript transformation "object" with
  | Ret obj =>
      match subscript obj "parser" with
      | Ret _ => true
      | Raise _ => false
      end
  | Raise _ => false
  end.



(** The log lines that carry no per-transformation outcome. *)
Definition Quiet {World A : Type} (m : M World A) : Prop :=
  forall w r w' lg, m w = (r, w', lg) -> outcomes lg = [].

(** ** A small installation for concrete runs *)

(** The world of the examples: the artifacts present. *)
Definition Files : Type := list string.

(** A callable that takes no argument. *)
Definition nullary {World : Type} (body : Plug World json)
  : list json -> list (string * json) -> Plug World json :=
  fun args kwargs =>
    match args, kwargs with
    | [], [] => body
    | _, _ => plug_raise (TypeError "takes no arguments")
    end.

(** An instance of a class derived from [BaseParser], seen as an object:
    [run_operation] is the inherited method, the other attributes are
    the instance's own. *)
Definition instance_of {World : Type} (self : parser_self World) : pyobj World :=
  OInst (fun name =>
    if name =? "run_operation"
    then Some (AMethod (fun args kwargs =>
           match args, kwargs with
           | [operation_name], [] => run_operation self operation_name
           | _, _ => plug_raise (TypeError "run_operation() takes one argument")
           end))
    else self_getattr self name).

(** The public attributes of a boolean that every CPython 3 has:
    [bit_length] and [conjugate] are methods without parameters, the
    others are integers. *)
Definition cpython_bool_getattr {World : Type} (b : bool) (name : string)
  : option (attr World) :=
  let n := JNum (if b then 1 else 0) in
  if name =? "bit_length" then Some (AMethod (nullary (plug_ret n)))
  else if name =? "conjugate" then Some (AMethod (nullary (plug_ret n)))
  else if name =? "real" then Some (ADatum n)
  else if name =? "numerator" then Some (ADatum n)
  else if name =? "imag" then Some (ADatum (JNum 0))
  else if name =? "denominator" then Some (ADatum (JNum 1))
  else None.

(** A contract-conforming parser that writes its output directory. *)
Definition Maker : pyclass Files :=
  {| construct := fun source_file output_directory _ =>
       let make : Plug Files json :=
         fun w => (Ret (JBool true), output_directory :: w, []) in
       plug_ret (instance_of
         {| get_available_operations := ["make"];
            self_getattr := fun name =>
              if (name =? "make") || (name =? "process")
              then Some (AMethod (nullary make)) else None |}) |}.

(** A contract-conforming parser that succeeds when its source exists. *)
Definition Checker : pyclass Files :=
  {| construct := fun source_file output_directory _ =>
       let check : Plug Files json :=
         fun w => (Ret (JBool (existsb (String.eqb source_file) w)), w, []) in
       plug_ret (instance_of
         {| get_available_operations := ["check"];
            self_getattr := fun name =>
              if (name =? "check") || (name =? "process")
              then Some (AMethod (nullary check)) else None |}) |}.

(** An old-style parser without dispatcher; it keeps the keyword
    arguments of its constructor in the attribute [options]. *)
Definition LegacyParser : pyclass Files :=
  {| construct := fun source_file output_directory kwargs =>
       plug_ret (OInst (fun name =>
         if name =? "process" then Some (AMethod (nullary (plug_ret JNull)))
         else if name =? "options" then Some (ADatum (JDict kwargs))
         else None)) |}.

Definition module_of (class_name : string) (c : pyclass Files) : pymodule Files :=
  fun name => if name =? class_name then Some (MClass c) else None.

(** The local registry: [checker] and [legacy_parser] always,
    [maker] on demand. *)
Definition demo_import (with_maker : bool) (name : string)
  : Plug Files (pymodule Files) :=
  if (name =? "parsers.maker") && with_maker
  then plug_ret (module_of "Maker" Maker)
  else if name =? "parsers.checker"
  then plug_ret (module_of "Checker" Checker)
  else if name =? "parsers.legacy_parser"
  then plug_ret (module_of "LegacyParser" LegacyParser)
  else plug_raise (ImportError "No module named parsers").

(** The remote store: the bucket [scripts] holds the base contract and
    [legacy_parser] under [plugins/]. *)
Definition demo_download (bucket : json) (key path : string) : Plug Files unit :=
  match bucket with
  | JStr b =>
      if (b =? "scripts") &&
         ((key =? "plugins/base_parser.py") || (key =? "plugins/legacy_parser.py"))
      then plug_ret tt
      else plug_raise (ClientError "An error occurred (404)")
  | _ => plug_raise (OtherError "Parameter validation failed")
  end.

Definition demo_exec (name path : string) : Plug Files (pymodule Files) :=
  if path =? "/tmp/s3_download_legacy_parser.py"
  then plug_ret (module_of "LegacyParser" LegacyParser)
  else plug_raise (FileNotFoundError path).

Definition demo_env (with_maker : bool) : Env Files :=
  {| temp_path := fun name => "/tmp/" ++ name;
     download_file := demo_download;
     exec_module := demo_exec;
     import_module := demo_import with_maker;
     bool_getattr := cpython_bool_getattr |}.

Definition object_of (origin destiny class_name parser : string) : json :=
  JDict [("origin", JStr origin); ("destiny", JStr destiny);
         ("classname", JStr class_name); ("parser", JStr parser)].

Definition entry (origin destiny class_name parser : string)
    (kwargs : list (string * json)) : json :=
  JDict [("object", object_of origin destiny class_name parser);
         ("kwargs", JDict kwargs)].

Definition make_object : json := object_of "s3://in/a" "s3://out/a" "Maker" "make".

Definition make_entry : json := entry "s3://in/a" "s3://out/a" "Maker" "make" [].
Definition check_entry : json := entry "s3://out/a" "s3://done" "Checker" "check" [].

(** An entry in the format of a job description without the key
    [parser], for a class that does not exist. *)
Definition keyless_entry : json :=
  JDict [("object", JDict [("origin", JStr "s3://in/a");
                           ("destiny", JStr "s3://out/a");
                           ("classname", JStr "Nowhere")]);
         ("kwargs", JDict [])].

Definition remote_options : list (string * json) :=
  [("scripts_bucket", JStr "scripts"); ("scripts_path", JStr "plugins/");
   ("password", JStr "secret")].

Definition legacy_object : json :=
  object_of "s3://in/a" "s3://out/a" "LegacyParser" "process".

(** An object whose class name is a number. *)
Definition numeric_class_object : json :=
  JDict [("origin", JStr "s3://in/a"); ("destiny", JStr "s3://out/a");
         ("classname", JNum 5); ("parser", JStr "process")].


(** A contract-conforming parser whose [process] raises. *)
Definition failing_self : parser_self unit :=
  {| get_available_operations := ["process"];
     self_getattr := fun name =>
       if name =? "process"
       then Some (AMethod (nullary (plug_raise (OtherError "boom"))))
       else None |}.

(** An object without the key [origin], asked for [bit_length]. *)
Definition originless_object : json :=
  JDict [("destiny", JStr "s3://out/a"); ("classname", JStr "ZipFileParser");
         ("parser", JStr "bit_length")].

(* ================================================================== *)
(** * The builtin parsers                                              *)
(* ================================================================== *)

(** [s.replace("_", "")]-like projection used to compare names: the
    characters of a name other than the underscore. *)
Fixpoint without_underscores (s : string) : string :=
  match s with
  | EmptyString => EmptyString
  | String c tl =>
      if Ascii.eqb c "_" then without_underscores tl
      else String c (without_underscores tl)
  end.

Fixpoint ends_with_slash (p : string) : bool :=
  match p with
  | EmptyString => false
  | String c EmptyString => Ascii.eqb c "/"
  | String _ tl => ends_with_slash tl
  end.

(** [os.path.join(a, b)] on POSIX. *)
Definition path_join (a b : string) : string :=
  if starts_with "/" b then b
  else if String.eqb a "" || ends_with_slash a then a ++ b
  else a ++ "/" ++ b.


Section Parsers.

Variable World : Type.

Definition plug_bind {A B : Type} (m : Plug World A) (f : A -> Plug World B)
  : Plug World B :=
  fun w =>
    match m w with
    | (Ret a, w1, l1) => let '(r, w2, l2) := f a w1 in (r, w2, (l1 ++ l2)%list)
    | (Raise e, w1, l1) => (Raise e, w1, l1)
    end.

Definition plug_try {A : Type} (body : Plug World A)
    (handler : exn -> Plug World A) : Plug World A :=
  fun w =>
    match body w with
    | (Raise e, w1, l1) => let '(r, w2, l2) := handler e w1 in (r, w2, (l1 ++ l2)%list)
    | (Ret a, w1, l1) => (Ret a, w1, l1)
    end.

(** [utils.logger.log] called from parser code. *)
Definition plug_log (text : string) (error : bool) : Plug World unit :=
  fun w => (Ret tt, w, [(text, error)]).

Local Notation "x <- m ;; k" := (plug_bind m (fun x => k))
  (at level 61, m at next level, right associativity).
Local Notation "m ;; k" := (plug_bind m (fun _ => k))
  (at level 61, right associativity).

(** What opening or extracting an archive gives when it does not raise
    anything but [zipfile.BadZipFile]. *)
Inductive zip_status : Type :=
| ZipOk
| BadZipFile.

(** An element of a parsed document: tag, text and child elements. *)
Inductive xml : Type :=
| Element (tag : string) (text : option string) (children : list xml).

Definition xml_tag (e : xml) : string :=
  match e with Element tag _ _ => tag end.

Definition xml_text (e : xml) : option string :=
  match e with Element _ text _ => text end.

Definition xml_children (e : xml) : list xml :=
  match e with Element _ _ children => children end.

(** What [ET.parse(...).getroot()] gives when it does not raise anything
    but [ET.ParseError]. *)
Inductive parse_status : Type :=
| Parsed (root : xml)
| ParseError (text : string).

(** The library calls of the parsers.
    - [os_makedirs d] is [os.makedirs(d, exist_ok=True)];
    - [zip_open f] is [zipfile.ZipFile(f, 'r')];
    - [zip_extractall f d pwd] is [extractall(d)] or
      [extractall(d, pwd=...)] on the archive [f], and closing it;
    - [xml_parse f] is [ET.parse(f).getroot()];
    - [open_write p] opens [p] for writing, creating or emptying it;
    - [csv_writerow p row] is [writerow(row)] on the writer of [p]. *)
Record OS : Type := {
  os_makedirs : string -> Plug World unit;
  zip_open : string -> Plug World zip_status;
  zip_extractall : string -> string -> option string -> Plug World zip_status;
  xml_parse : string -> Plug World parse_status;
  open_write : string -> Plug World unit;
  csv_writerow : string -> list string -> Plug World unit
}.

Variable os : OS.

(** [BaseParser.__init__(self, source_file, output_directory, **options)]
    called with two positional arguments: a keyword that names a
    parameter already given is refused, everything else is accepted and
    dropped. *)
Definition BaseParser_init (options : list (string * json)) : res unit :=
  if existsb (fun kv => existsb (String.eqb (fst kv))
                          ["self"; "source_file"; "output_directory"]) options
  then Raise (TypeError "got multiple values for argument")
  else Ret tt.

(** ** [parsers.zip_file_parser.ZipFileParser] *)

Definition ZipFileParser_get_available_operations : list string := ["unzip"].

(** [ZipFileParser.unzip(self, password)] *)
Definition ZipFileParser_unzip (source_file output_directory : string)
    (password : json) : Plug World json :=
  plug_try
    (os_makedirs os output_directory ;;
     opened <- zip_open os source_file ;;
     match opened with
     | BadZipFile =>
         plug_log ("Error: " ++ source_file ++ " is not a valid ZIP file") true ;;
         plug_ret (JBool false)
     | ZipOk =>
         extracted <-
           (if truthy password
            then match password with
                 | JStr pwd =>
                     zip_extractall os source_file output_directory (Some pwd)
                 | _ => plug_raise
                          (AttributeError "object has no attribute 'encode'")
                 end
            else zip_extractall os source_file output_directory None) ;;
         match extracted with
         | BadZipFile =>
             plug_log ("Error: " ++ source_file ++ " is not a valid ZIP file")
               true ;;
             plug_ret (JBool false)
         | ZipOk =>
             plug_log ("Successfully extracted ZIP file: " ++ source_file
                       ++ " -> " ++ output_directory) false ;;
             plug_ret (JBool true)
         end
     end)
    (fun e =>
       plug_log ("Error extracting ZIP file " ++ source_file ++ ": "
                 ++ exn_text e) true ;;
       plug_ret (JBool false)).

(** [ZipFileParser.process(self)] *)
Definition ZipFileParser_process (source_file output_directory : string)
  : Plug World json :=
  ZipFileParser_unzip source_file output_directory JNull.

(** The method [unzip] as an attribute: [password] may be given by
    position or by keyword and defaults to [None]. *)
Definition unzip_method (source_file output_directory : string)
  : list json -> list (string * json) -> Plug World json :=
  fun args kwargs =>
    match args, kwargs with
    | [], [] => ZipFileParser_unzip source_file output_directory JNull
    | [password], [] => ZipFileParser_unzip source_file output_directory password
    | [], [(key, password)] =>
        if String.eqb key "password"
        then ZipFileParser_unzip source_file output_directory password
        else plug_raise (TypeError "unzip() got an unexpected keyword argument")
    | _, _ => plug_raise (TypeError "unzip() takes from 1 to 2 arguments")
    end.

Definition ZipFileParser_self (source_file output_directory : string)
  : parser_self World :=
  {| get_available_operations := ZipFileParser_get_available_operations;
     self_getattr := fun name =>
       if name =? "unzip"
       then Some (AMethod (unzip_method source_file output_directory))
       else if name =? "process"
       then Some (AMethod (nullary
                    (ZipFileParser_process source_file output_directory)))
       else if name =? "get_available_operations"
       then Some (AMethod (nullary
                    (plug_ret (JList (map JStr
                       ZipFileParser_get_available_operations)))))
       else if name =? "source_file" then Some (ADatum (JStr source_file))
       else if name =? "output_directory"
       then Some (ADatum (JStr output_directory))
       else None |}.

(** The class [ZipFileParser]. *)
Definition ZipFileParser : pyclass World :=
  {| construct := fun source_file output_directory options =>
       match BaseParser_init options with
       | Ret _ => plug_ret (instance_of
                    (ZipFileParser_self source_file output_directory))
       | Raise e => plug_raise e
       end |}.

(** ** [parsers.xml_to_csv_parser.XmlToCsvParser] *)

Definition XmlToCsvParser_get_available_operations : list string :=
  ["xml_to_csv"].

(** [elem.text or ''] *)
Definition text_or_empty (e : xml) : string :=
  match xml_text e with
  | Some t => t
  | None => ""
  end.

(** The rows [xml_to_csv] writes for a root with children: the tags of
    the children of the first element, then one row of texts per
    element. *)
Definition csv_rows (root : xml) : list (list string) :=
  match xml_children root with
  | [] => []
  | first :: _ =>
      map xml_tag (xml_children first)
      :: map (fun element => map text_or_empty (xml_children element))
           (xml_children root)
  end.

Fixpoint write_rows (path : string) (rows : list (list string))
  : Plug World unit :=
  match rows with
  | [] => plug_ret tt
  | row :: rest => csv_writerow os path row ;; write_rows path rest
  end.

(** The path of the CSV file written for a source. *)
Definition csv_path (source_file output_directory : string) : string :=
  path_join output_directory (str_replace ".xml" ".csv" (basename source_file)).

(** [XmlToCsvParser.xml_to_csv(self)] *)
Definition XmlToCsvParser_xml_to_csv (source_file output_directory : string)
  : Plug World json :=
  plug_try
    (parsed <- xml_parse os source_file ;;
     match parsed with
     | ParseError text =>
         plug_log ("Error: " ++ source_file ++ " is not a valid XML file: "
                   ++ text) true ;;
         plug_ret (JBool false)
     | Parsed root =>
         os_makedirs os output_directory ;;
         let output_path := csv_path source_file output_directory in
         open_write os output_path ;;
         match xml_children root with
         | [] =>
             plug_log ("Warning: XML file " ++ source_file
                       ++ " has no data elements") true ;;
             plug_ret (JBool false)
         | _ :: _ =>
             write_rows output_path (csv_rows root) ;;
             plug_log ("Successfully converted XML to CSV: " ++ source_file
                       ++ " -> " ++ output_path) false ;;
             plug_ret (JBool true)
         end
     end)
    (fun e =>
       plug_log ("Error converting XML to CSV " ++ source_file ++ ": "
                 ++ exn_text e) true ;;
       plug_ret (JBool false)).

(** [XmlToCsvParser.process(self)] *)
Definition XmlToCsvParser_process (source_file output_directory : string)
  : Plug World json :=
  XmlToCsvParser_xml_to_csv source_file output_directory.

Definition XmlToCsvParser_self (source_file output_directory : string)
  : parser_self World :=
  {| get_available_operations := XmlToCsvParser_get_available_operations;
     self_getattr := fun name =>
       if name =? "xml_to_csv"
       then Some (AMethod (nullary
                    (XmlToCsvParser_xml_to_csv source_file output_directory)))
       else if name =? "process"
       then Some (AMethod (nullary
                    (XmlToCsvParser_process source_file output_directory)))
       else if name =? "get_available_operations"
       then Some (AMethod (nullary
                    (plug_ret (JList (map JStr
                       XmlToCsvParser_get_available_operations)))))
       else if name =? "source_file" then Some (ADatum (JStr source_file))
       else if name =? "output_directory"
       then Some (ADatum (JStr output_directory))
       else None |}.

(** The class [XmlToCsvParser]. *)
Definition XmlToCsvParser : pyclass World :=
  {| construct := fun source_file output_directory options =>
       match BaseParser_init options with
       | Ret _ => plug_ret (instance_of
                    (XmlToCsvParser_self source_file output_directory))
       | Raise e => plug_raise e
       end |}.

(** The package [parsers] with its two builtin modules. *)
Definition builtin_import (name : string) : Plug World (pymodule World) :=
  if name =? "parsers.zip_file_parser"
  then plug_ret (fun class_name =>
         if class_name =? "ZipFileParser" then Some (MClass ZipFileParser)
         else None)
  else if name =? "parsers.xml_to_csv_parser"
  then plug_ret (fun class_name =>
         if class_name =? "XmlToCsvParser" then Some (MClass XmlToCsvParser)
         else None)
  else plug_raise (ImportError ("No module named '" ++ name ++ "'")).

End Parsers.

Arguments plug_bind {World A B} m f _.
Arguments plug_try {World A} body handler _.
Arguments plug_log {World} text error _.
Arguments Build_OS {World} _ _ _ _ _ _.
Arguments os_makedirs {World} o _ _.
Arguments zip_open {World} o _ _.
Arguments zip_extractall {World} o _ _ _ _.
Arguments xml_parse {World} o _ _.
Arguments open_write {World} o _ _.
Arguments csv_writerow {World} o _ _ _.
Arguments ZipFileParser_unzip {World} os source_file output_directory password _.
Arguments ZipFileParser_process {World} os source_file output_directory _.
Arguments unzip_method {World} os source_file output_directory args kwargs _.
Arguments ZipFileParser_self {World} os source_file output_directory.
Arguments ZipFileParser {World} os.
Arguments write_rows {World} os path rows _.
Arguments XmlToCsvParser_xml_to_csv {World} os source_file output_directory _.
Arguments XmlToCsvParser_process {World} os source_file output_directory _.
Arguments XmlToCsvParser_self {World} os source_file output_directory.
Arguments XmlToCsvParser {World} os.
Arguments builtin_import {World} os name _.

(** The options from which no object key can be built: no bucket, no
    path, or a path that is not a string. *)
Definition lacks_store_keys (kwargs : json) : bool :=
  match subscript kwargs "scripts_bucket" with
  | Raise _ => true
  | Ret _ =>
      match subscript kwargs "scripts_path" with
      | Ret (JStr _) => false
      | _ => true
      end
  end.

(** What [run_job] iterates over, when the definition can be read. *)
Definition entries_of (definition : res json) : res (list json) :=
  match definition with
  | Raise e => Raise e
  | Ret job =>
      match subscript job "transformations" with
      | Raise e => Raise e
      | Ret transformations => iterate transformations
      end
  end.

(** ** A small file system for concrete runs of the builtin parsers *)

Definition demo_root : xml :=
  Element "rows" None
    [Element "row" None
       [Element "id" (Some "1") []; Element "name" None []];
     Element "row" None
       [Element "id" (Some "2") []; Element "name" (Some "b") []]].

Definition empty_root : xml := Element "rows" None [].

(** Directories and files are names in the world; an archive or a
    document can be read when its name is present; [empty.xml] holds a
    root without children. *)
Definition demo_os : OS Files :=
  {| os_makedirs := fun d w => (Ret tt, d :: w, []);
     zip_open := fun f w =>
       if existsb (String.eqb f) w then (Ret ZipOk, w, [])
       else (Raise (FileNotFoundError f), w, []);
     zip_extractall := fun f d pwd w => (Ret ZipOk, (d ++ "/content") :: w, []);
     xml_parse := fun f w =>
       if existsb (String.eqb f) w
       then (Ret (Parsed (if f =? "s3/in/empty.xml" then empty_root
                          else demo_root)), w, [])
       else (Raise (FileNotFoundError f), w, []);
     open_write := fun p w => (Ret tt, p :: w, []);
     csv_writerow := fun p row w => (Ret tt, w, []) |}.

(** The installation with the builtin parsers as local registry. *)
Definition builtin_env : Env Files :=
  {| temp_path := fun name => "/tmp/" ++ name;
     download_file := demo_download;
     exec_module := demo_exec;
     import_module := builtin_import demo_os;
     bool_getattr := cpython_bool_getattr |}.

Definition zip_object : json :=
  object_of "s3://in/a.zip" "s3://out" "ZipFileParser" "unzip".



(* ================================================================== *)
(** * The executor and what [except Exception] lets through            *)
(* ================================================================== *)

(** The engine above takes every raise to be an exception derived from
    [Exception] whose text can be formatted.  [execute_transformation]
    is modelled here once more with the two other things a raise in
    parser code can be; [create_parser], its callee, is given by what
    it does. *)
Module Escapes.

(** What a [raise] carries: an exception derived from [Exception],
    together with what formatting it in an f-string does ([None]: the
    text is produced; [Some r]: its [__str__] raises [r]); or an
    exception derived from [BaseException] only ([SystemExit],
    [KeyboardInterrupt], [GeneratorExit]), given by its name. *)
Inductive raised : Type :=
| Exc (e : exn) (on_format : option raised)
| Exit (name : string).

Inductive xres (A : Type) : Type :=
| XRet (a : A)
| XRaise (r : raised).
Arguments XRet {A} a.
Arguments XRaise {A} r.

Section Executor.

Variable World : Type.

(** Code outside the engine, and engine code. *)
Definition XPlug (A : Type) : Type :=
  World -> xres A * World * list (string * bool).

Definition XM (A : Type) : Type :=
  World -> xres A * World * list log_entry.

Definition ret {A : Type} (a : A) : XM A :=
  fun w => (XRet a, w, []).

Definition raise {A : Type} (r : raised) : XM A :=
  fun w => (XRaise r, w, []).

Definition bind {A B : Type} (m : XM A) (f : A -> XM B) : XM B :=
  fun w =>
    match m w with
    | (XRet a, w1, l1) => let '(r, w2, l2) := f a w1 in (r, w2, (l1 ++ l2)%list)
    | (XRaise r, w1, l1) => (XRaise r, w1, l1)
    end.

(** [try: body except Exception as e: handler]: only an exception
    derived from [Exception] reaches the handler. *)
Definition try_except {A : Type} (body : XM A)
    (handler : exn -> option raised -> XM A) : XM A :=
  fun w =>
    match body w with
    | (XRaise (Exc e on_format), w1, l1) =>
        let '(r, w2, l2) := handler e on_format w1 in (r, w2, (l1 ++ l2)%list)
    | (XRaise (Exit name), w1, l1) => (XRaise (Exit name), w1, l1)
    | (XRet a, w1, l1) => (XRet a, w1, l1)
    end.

(** [log(f"... {e}", error)]: the message is formatted first, and the
    line is written when that succeeds. *)
Definition log_exception (m : exn -> msg) (e : exn)
    (on_format : option raised) (error : bool) : XM unit :=
  match on_format with
  | None => fun w => (XRet tt, w, [EngineLog (m e) error])
  | Some r => raise r
  end.

(** An exception the interpreter raises itself can be formatted. *)
Definition lift {A : Type} (r : res A) : XM A :=
  match r with
  | Ret a => ret a
  | Raise e => raise (Exc e None)
  end.

Definition run_plugin {A : Type} (p : XPlug A) : XM A :=
  fun w => let '(r, w', l) := p w in
           (r, w', map (fun t => PluginLog (fst t) (snd t)) l).

Inductive attr : Type :=
| ADatum (v : json)
| AMethod (f : list json -> list (string * json) -> XPlug json).

Inductive pyobj : Type :=
| ONone
| OBool (b : bool)
| OInst (members : string -> option attr).

(** The attribute table of the booleans. *)
Variable bool_getattr : bool -> string -> option attr.

Definition obj_getattr (o : pyobj) (name : string) : option attr :=
  match o with
  | ONone => None
  | OBool b => bool_getattr b name
  | OInst members => members name
  end.

Definition call (a : attr) (args : list json) (kwargs : list (string * json))
  : XM json :=
  match a with
  | AMethod f => run_plugin (f args kwargs)
  | ADatum _ => raise (Exc (TypeError "object is not callable") None)
  end.

(** The dispatch of [execute_transformation] on the created parser. *)
Definition dispatch (parser : pyobj) (operation_name options : json) : XM bool :=
  match parser with
  | ONone => ret false
  | _ =>
      match obj_getattr parser "run_operation" with
      | Some run_operation =>
          bind (call run_operation [operation_name] [])
            (fun result => ret (is_not_False result))
      | None =>
          bind (lift (attr_name operation_name)) (fun name =>
          match obj_getattr parser name with
          | Some method =>
              bind (lift (unpack options)) (fun kwargs =>
              bind (call method [] kwargs) (fun _ => ret true))
          | None =>
              match obj_getattr parser "process" with
              | Some process => bind (call process [] []) (fun _ => ret true)
              | None =>
                  raise (Exc (AttributeError "object has no attribute 'process'")
                           None)
              end
          end)
      end
  end.

(** The [try] suite of [execute_transformation]; [created] is what
    [create_parser(obj, options)] does. *)
Definition execute_transformation_body (created : XM pyobj)
    (operation_name options : json) : XM bool :=
  bind created (fun parser => dispatch parser operation_name options).

(** [job.runner.execute_transformation] *)
Definition execute_transformation (created : XM pyobj)
    (operation_name options : json) : XM bool :=
  try_except
    (execute_transformation_body created operation_name options)
    (fun e on_format =>
       bind (log_exception MsgExecutionError e on_format true)
         (fun _ => ret false)).

End Executor.

Arguments ret {World A} a _.
Arguments raise {World A} r _.
Arguments bind {World A B} m f _.
Arguments try_except {World A} body handler _.
Arguments log_exception {World} m e on_format error _.
Arguments lift {World A} r _.
Arguments run_plugin {World A} p _.
Arguments ADatum {World} v.
Arguments AMethod {World} f.
Arguments ONone {World}.
Arguments OBool {World} b.
Arguments OInst {World} members.
Arguments obj_getattr {World} bool_getattr o name.
Arguments call {World} a args kwargs _.
Arguments dispatch {World} bool_getattr parser operation_name options _.
Arguments execute_transformation_body {World} bool_getattr created
  operation_name options _.
Arguments execute_transformation {World} bool_getattr created
  operation_name options _.

End Escapes.

(** ** The engine above seen from here *)

Definition escapes_of_res {A : Type} (r : res A) : Escapes.xres A :=
  match r with
  | Ret a => Escapes.XRet a
  | Raise e => Escapes.XRaise (Escapes.Exc e None)
  end.

Definition escapes_of_plug {World A : Type} (p : Plug World A)
  : Escapes.XPlug World A :=
  fun w => let '(r, w', l) := p w in (escapes_of_res r, w', l).

Definition escapes_of_engine {World A : Type} (m : M World A)
  : Escapes.XM World A :=
  fun w => let '(r, w', l) := m w in (escapes_of_res r, w', l).

Definition escapes_of_attr {World : Type} (a : attr World)
  : Escapes.attr World :=
  match a with
  | ADatum v => Escapes.ADatum v
  | AMethod f =>
      Escapes.AMethod (fun args kwargs => escapes_of_plug (f args kwargs))
  end.

Definition escapes_of_obj {World : Type} (o : pyobj World)
  : Escapes.pyobj World :=
  match o with
  | ONone => Escapes.ONone
  | OBool b => Escapes.OBool b
  | OInst members =>
      Escapes.OInst (fun name => option_map escapes_of_attr (members name))
  end.

(** What [create_parser] of the engine does, with its object seen from
    here. *)
Definition escapes_of_created {World : Type} (m : M World (pyobj World))
  : Escapes.XM World (Escapes.pyobj World) :=
  fun w =>
    let '(r, w', l) := m w in
    (match r with
     | Ret o => Escapes.XRet (escapes_of_obj o)
     | Raise e => Escapes.XRaise (Escapes.Exc e None)
     end, w', l).

Definition escapes_of_bool_getattr {World : Type} (env : Env World)
  : bool -> string -> option (Escapes.attr World) :=
  fun b name => option_map escapes_of_attr (bool_getattr env b name).

(** An old-style parser whose [process] ends the interpreter
    ([sys.exit()]). *)
Definition exiting_parser : Escapes.pyobj Files :=
  Escapes.OInst (fun name =>
    if name =? "process"
    then Some (Escapes.AMethod (fun _ _ w =>
           (Escapes.XRaise (Escapes.Exit "SystemExit"), w, [])))
    else None).

(** A parser whose dispatcher raises an exception that cannot be
    formatted: its [__str__] raises [TypeError]. *)
Definition unprintable_parser : Escapes.pyobj Files :=
  Escapes.OInst (fun name =>
    if name =? "run_operation"
    then Some (Escapes.AMethod (fun _ _ w =>
           (Escapes.XRaise
              (Escapes.Exc (OtherError "")
                 (Some (Escapes.Exc
                          (TypeError "__str__ returned non-string") None))),
            w, [])))
    else None).

Definition check_object : json :=
  object_of "s3://out/a" "s3://done" "Checker" "check".

(* ================================================================== *)
(** * Properties of the string functions                               *)
(* ================================================================== *)

Section Scanning.

Variable m : matcher.
Hypothesis m_consuming : consuming m.

Lemma sub_fuel_enough :
  forall n k s,
    String.length s <= n -> String.length s <= k ->
    sub_fuel n m s = sub_fuel k m s.
Proof.
  induction n as [|n IH]; intros k s Hn Hk.
  - destruct s; simpl in Hn; [|lia]. destruct k; reflexivity.
  - destruct k as [|k].
    + destruct s; simpl in Hk; [reflexivity|lia].
    + destruct s as [|c tl]; [reflexivity|].
      simpl in Hn, Hk. cbn [sub_fuel].
      destruct (m (String c tl)) as [[repl rest]|] eqn:E.
      * apply m_consuming in E. simpl in E.
        f_equal. apply IH; lia.
      * f_equal. apply IH; lia.
Qed.

Lemma sub_nil : sub m EmptyString = EmptyString.
Proof. reflexivity. Qed.

Lemma sub_cons :
  forall c tl,
    sub m (String c tl) =
    match m (String c tl) with
    | Some (repl, rest) => repl ++ sub m rest
    | None => String c (sub m tl)
    end.
Proof.
  intros c tl. unfold sub. cbn [String.length sub_fuel].
  destruct (m (String c tl)) as [[repl rest]|] eqn:E.
  - apply m_consuming in E. simpl in E.
    f_equal. apply sub_fuel_enough; lia.
  - reflexivity.
Qed.

End Scanning.

Lemma span_lower_length :
  forall s run rest,
    span_lower s = (run, rest) -> String.length rest <= String.length s.
Proof.
  induction s as [|c tl IH]; intros run rest H; simpl in H.
  - inversion H; subst. simpl. lia.
  - destruct (is_lower c).
    + destruct (span_lower tl) as [r1 r2] eqn:E.
      inversion H; subst. specialize (IH _ _ eq_refl). simpl. lia.
    + inversion H; subst. lia.
Qed.

Lemma match_word_consuming : consuming match_word.
Proof.
  intros s repl rest H. unfold match_word in H.
  destruct s as [|c [|u [|l tl]]]; try discriminate.
  destruct (negb (is_newline c) && is_upper u && is_lower l); [|discriminate].
  destruct (span_lower tl) as [run rest'] eqn:E.
  inversion H; subst. apply span_lower_length in E. simpl. lia.
Qed.

Lemma match_hump_consuming : consuming match_hump.
Proof.
  intros s repl rest H. unfold match_hump in H.
  destruct s as [|a [|u tl]]; try discriminate.
  destruct ((is_lower a || is_digit a) && is_upper u); [|discriminate].
  inversion H; subst. simpl. lia.
Qed.

Lemma skip_length :
  forall n s, String.length (skip n s) = String.length s - n.
Proof.
  induction n as [|n IH]; intros s; simpl.
  - lia.
  - destruct s as [|c tl]; simpl; [reflexivity|apply IH].
Qed.

Lemma starts_with_length :
  forall p s, starts_with p s = true -> String.length p <= String.length s.
Proof.
  induction p as [|a p IH]; intros s H; simpl.
  - lia.
  - destruct s as [|b s]; simpl in H; [discriminate|].
    apply andb_true_iff in H. destruct H as [_ H].
    apply IH in H. simpl. lia.
Qed.

Lemma match_literal_consuming :
  forall old new, old <> EmptyString -> consuming (match_literal old new).
Proof.
  intros old new Hold s repl rest H. unfold match_literal in H.
  destruct (starts_with old s) eqn:E; [|discriminate].
  inversion H; subst. apply starts_with_length in E.
  rewrite skip_length. destruct old; [congruence|]. simpl in *. lia.
Qed.

(** ** [camel_to_snake] *)

Lemma lower_char_not_upper : forall c, is_upper (lower_char c) = false.
Proof.
  intros c.
  destruct c as [[|] [|] [|] [|] [|] [|] [|] [|]]; reflexivity.
Qed.

Lemma lower_char_idempotent :
  forall c, lower_char (lower_char c) = lower_char c.
Proof.
  intros c.
  destruct c as [[|] [|] [|] [|] [|] [|] [|] [|]]; reflexivity.
Qed.

Lemma lower_char_fixed_not_upper :
  forall c, lower_char c = c -> is_upper c = false.
Proof.
  intros c H. rewrite <- H. apply lower_char_not_upper.
Qed.

Lemma lower_no_upper : forall s, no_upper (lower s) = true.
Proof.
  induction s as [|c tl IH]; simpl; [reflexivity|].
  rewrite lower_char_not_upper, IH. reflexivity.
Qed.

Lemma lower_idempotent : forall s, lower (lower s) = lower s.
Proof.
  induction s as [|c tl IH]; simpl; [reflexivity|].
  rewrite lower_char_idempotent, IH. reflexivity.
Qed.

Lemma sub_word_no_upper :
  forall s, no_upper s = true -> sub match_word s = s.
Proof.
  induction s as [|c tl IH]; intros H; [reflexivity|].
  rewrite (sub_cons _ match_word_consuming).
  simpl in H. apply andb_true_iff in H. destruct H as [_ Htl].
  assert (E : match_word (String c tl) = None).
  { destruct tl as [|u [|l rest]]; try reflexivity.
    simpl in Htl. apply andb_true_iff in Htl. destruct Htl as [Hu _].
    apply negb_true_iff in Hu. unfold match_word. rewrite Hu.
    rewrite andb_false_r. reflexivity. }
  rewrite E, (IH Htl). reflexivity.
Qed.

Lemma sub_hump_no_upper :
  forall s, no_upper s = true -> sub match_hump s = s.
Proof.
  induction s as [|c tl IH]; intros H; [reflexivity|].
  rewrite (sub_cons _ match_hump_consuming).
  simpl in H. apply andb_true_iff in H. destruct H as [_ Htl].
  assert (E : match_hump (String c tl) = None).
  { destruct tl as [|u rest]; try reflexivity.
    simpl in Htl. apply andb_true_iff in Htl. destruct Htl as [Hu _].
    apply negb_true_iff in Hu. unfold match_hump. rewrite Hu.
    rewrite andb_false_r. reflexivity. }
  rewrite E, (IH Htl). reflexivity.
Qed.

Lemma camel_to_snake_no_upper :
  forall s, no_upper s = true -> camel_to_snake s = lower s.
Proof.
  intros s H. unfold camel_to_snake.
  rewrite (sub_word_no_upper s H), (sub_hump_no_upper s H). reflexivity.
Qed.

(** C6: the class-name conversion is idempotent.  A name already in the
    converted form (unchanged by lowercasing) is returned as it is, and
    converting the conversion of any name gives the same string again. *)
Theorem camel_to_snake_idempotent :
  (forall s, is_converted s = true -> camel_to_snake s = s) /\
  (forall x, camel_to_snake (camel_to_snake x) = camel_to_snake x).
Proof.
  split.
  - intros s H. unfold is_converted in H. apply String.eqb_eq in H.
    rewrite camel_to_snake_no_upper.
    + exact H.
    + rewrite <- H. apply lower_no_upper.
  - intros x. unfold camel_to_snake at 2 3.
    rewrite camel_to_snake_no_upper by apply lower_no_upper.
    apply lower_idempotent.
Qed.

Lemma camel_to_snake_idempotent_witness :
  is_converted "xml_to_csv_parser" = true /\
  camel_to_snake "xml_to_csv_parser" = "xml_to_csv_parser".
Proof.
  split.
  - reflexivity.
  - apply (proj1 camel_to_snake_idempotent "xml_to_csv_parser"). reflexivity.
Defined.

(** C7: the class name HTMLParserV2 converts to the module identifier
    html_parser_v2: the first substitution splits the acronym run before
    its last capital (HTML_ParserV2), the second one before V. *)
Theorem camel_to_snake_acronym_run :
  sub match_word "HTMLParserV2" = "HTML_ParserV2" /\
  camel_to_snake "HTMLParserV2" = "html_parser_v2".
Proof. split; reflexivity. Qed.

Example camel_to_snake_xml :
  camel_to_snake "XmlToCsvParser" = "xml_to_csv_parser".
Proof. reflexivity. Qed.

Example camel_to_snake_zip :
  camel_to_snake "ZipFileParser" = "zip_file_parser".
Proof. reflexivity. Qed.

(** ** [s3_to_local] *)

Lemma s3_to_local_nil : s3_to_local EmptyString = EmptyString.
Proof. reflexivity. Qed.

Lemma s3_to_local_cons :
  forall c tl,
    s3_to_local (String c tl) =
    if starts_with "s3://" (String c tl)
    then "s3/" ++ s3_to_local (skip 5 (String c tl))
    else String c (s3_to_local tl).
Proof.
  intros c tl. unfold s3_to_local, str_replace.
  rewrite sub_cons by (apply match_literal_consuming; discriminate).
  unfold match_literal.
  destruct (starts_with "s3://" (String c tl)); reflexivity.
Qed.

(** A character of the result other than [s] at the head was copied from
    the head of the reference. *)
Lemma s3_to_local_head_copied :
  forall t h u,
    s3_to_local t = String h u -> h <> "s"%char ->
    exists t', t = String h t' /\ s3_to_local t' = u.
Proof.
  intros t h u H Hh. destruct t as [|c tl].
  - rewrite s3_to_local_nil in H. discriminate.
  - rewrite s3_to_local_cons in H.
    destruct (starts_with "s3://" (String c tl)).
    + simpl in H. inversion H; subst. congruence.
    + inversion H; subst. exists tl. split; reflexivity.
Qed.

Lemma starts_with_inv :
  forall p s, starts_with p s = true -> exists rest, s = p ++ rest.
Proof.
  induction p as [|a p IH]; intros s H.
  - exists s. reflexivity.
  - destruct s as [|b s]; cbn [starts_with] in H; [discriminate|].
    apply andb_true_iff in H. destruct H as [E H].
    apply Ascii.eqb_eq in E. subst b.
    destruct (IH _ H) as [rest ->]. exists rest. reflexivity.
Qed.

Lemma starts_with_app : forall p rest, starts_with p (p ++ rest) = true.
Proof.
  induction p as [|a p IH]; intros rest; cbn [starts_with append].
  - reflexivity.
  - rewrite Ascii.eqb_refl, IH. reflexivity.
Qed.

Lemma s3_to_local_no_occurrence :
  forall n s, String.length s <= n -> occurs_s3 (s3_to_local s) = false.
Proof.
  induction n as [|n IH]; intros s Hn.
  - destruct s; simpl in Hn; [reflexivity|lia].
  - destruct s as [|c tl]; [reflexivity|].
    rewrite s3_to_local_cons.
    destruct (starts_with "s3://" (String c tl)) eqn:E.
    + apply starts_with_inv in E. destruct E as [rest E].
      rewrite E. cbn [skip append String.length].
      assert (Hrest : occurs_s3 (s3_to_local rest) = false).
      { apply IH. rewrite E in Hn. simpl in Hn. lia. }
      cbn [occurs_s3 starts_with]. rewrite Hrest.
      reflexivity.
    + cbn [occurs_s3]. rewrite (IH tl) by (simpl in Hn; lia).
      rewrite orb_false_r.
      destruct (starts_with "s3://" (String c (s3_to_local tl))) eqn:F;
        [|reflexivity].
      apply starts_with_inv in F. destruct F as [rest F].
      cbn [append] in F. inversion F as [[Hc F1]].
      apply s3_to_local_head_copied in F1; [|discriminate].
      destruct F1 as [t1 [Ht1 F2]].
      apply s3_to_local_head_copied in F2; [|discriminate].
      destruct F2 as [t2 [Ht2 F3]].
      apply s3_to_local_head_copied in F3; [|discriminate].
      destruct F3 as [t3 [Ht3 F4]].
      apply s3_to_local_head_copied in F4; [|discriminate].
      destruct F4 as [t4 [Ht4 _]].
      subst. pose proof (starts_with_app "s3://" t4) as G.
      cbn [append] in G. rewrite G in E. discriminate.
Qed.

Lemma s3_to_local_fixed :
  forall s, occurs_s3 s = false -> s3_to_local s = s.
Proof.
  induction s as [|c tl IH]; intros H; [reflexivity|].
  cbn [occurs_s3] in H. apply orb_false_iff in H. destruct H as [H1 H2].
  rewrite s3_to_local_cons, H1, (IH H2). reflexivity.
Qed.

(** C9: the reference mapping is a function of the reference alone and
    is idempotent: resolving a resolved path changes nothing, and equal
    references give equal local paths. *)
Theorem s3_to_local_idempotent :
  (forall ref, s3_to_local (s3_to_local ref) = s3_to_local ref) /\
  (forall ref1 ref2, ref1 = ref2 -> s3_to_local ref1 = s3_to_local ref2).
Proof.
  split.
  - intros ref. apply s3_to_local_fixed.
    apply (s3_to_local_no_occurrence (String.length ref)). lia.
  - intros ref1 ref2 H. rewrite H. reflexivity.
Qed.

Lemma s3_to_local_idempotent_witness :
  s3_to_local (s3_to_local "s3://bucket/in/a.zip") = "s3/bucket/in/a.zip" /\
  s3_to_local "s3://a" = s3_to_local ("s3:/" ++ "/a").
Proof.
  split.
  - rewrite (proj1 s3_to_local_idempotent). reflexivity.
  - apply (proj2 s3_to_local_idempotent). reflexivity.
Defined.

Example s3_to_local_bucket :
  s3_to_local "s3://bucket/in/a.zip" = "s3/bucket/in/a.zip".
Proof. reflexivity. Qed.

(* ================================================================== *)
(** * Properties of the engine                                         *)
(* ================================================================== *)

Lemma outcomes_app :
  forall l1 l2, outcomes (l1 ++ l2) = (outcomes l1 ++ outcomes l2)%list.
Proof.
  induction l1 as [|[m e|t e] l1 IH]; intros l2; simpl.
  - reflexivity.
  - destruct m; simpl; rewrite ?IH; reflexivity.
  - apply IH.
Qed.

Lemma outcomes_plugin :
  forall l, outcomes (map plugin_entry l) = [].
Proof.
  induction l as [|[t e] l IH]; simpl; [reflexivity|exact IH].
Qed.

Create HintDb engine_quiet.

Section Quietness.

Context {World : Type}.

Lemma Quiet_ret : forall (A : Type) (a : A), Quiet (@ret World A a).
Proof. intros A a w r w' lg H. inversion H. reflexivity. Qed.

Lemma Quiet_raise : forall (A : Type) (e : exn), Quiet (@raise World A e).
Proof. intros A e w r w' lg H. inversion H. reflexivity. Qed.

Lemma Quiet_lift : forall (A : Type) (x : res A), Quiet (@lift World A x).
Proof. intros A x w r w' lg H. inversion H. reflexivity. Qed.

Lemma Quiet_run_plugin :
  forall (A : Type) (p : Plug World A), Quiet (run_plugin p).
Proof.
  intros A p w r w' lg H. unfold run_plugin in H.
  destruct (p w) as [[r0 w0] l0]. inversion H. apply outcomes_plugin.
Qed.

Lemma Quiet_log :
  forall (m : msg) (error : bool),
    outcomes [EngineLog m error] = [] -> Quiet (@log World m error).
Proof. intros m error Hm w r w' lg H. inversion H. exact Hm. Qed.

Lemma Quiet_bind :
  forall (A B : Type) (m : M World A) (f : A -> M World B),
    Quiet m -> (forall a, Quiet (f a)) -> Quiet (bind m f).
Proof.
  intros A B m f Hm Hf w r w' lg H. unfold bind in H.
  destruct (m w) as [[[a|e] w1] l1] eqn:E.
  - destruct (f a w1) as [[r2 w2] l2] eqn:F. inversion H; subst.
    rewrite outcomes_app, (Hm _ _ _ _ E), (Hf _ _ _ _ _ F). reflexivity.
  - inversion H; subst. apply (Hm _ _ _ _ E).
Qed.

Lemma Quiet_try_except :
  forall (A : Type) (body : M World A) (handler : exn -> M World A),
    Quiet body -> (forall e, Quiet (handler e)) ->
    Quiet (try_except body handler).
Proof.
  intros A body handler Hb Hh w r w' lg H. unfold try_except in H.
  destruct (body w) as [[[a|e] w1] l1] eqn:E.
  - inversion H; subst. apply (Hb _ _ _ _ E).
  - destruct (handler e w1) as [[r2 w2] l2] eqn:F. inversion H; subst.
    rewrite outcomes_app, (Hb _ _ _ _ E), (Hh _ _ _ _ _ F). reflexivity.
Qed.

End Quietness.

Ltac quiet_step :=
  first
    [ apply Quiet_ret | apply Quiet_raise | apply Quiet_lift
    | apply Quiet_run_plugin | apply Quiet_log; reflexivity
    | apply Quiet_bind | apply Quiet_try_except
    | solve [auto with engine_quiet]
    | match goal with
      | |- forall _, _ => intro
      | |- Quiet (match ?x with _ => _ end) => destruct x
      end ].

Ltac quiet := repeat quiet_step.

#[local] Arguments s3_to_local : simpl never.
#[local] Arguments camel_to_snake : simpl never.

Section Properties.

Context {World : Type}.
Variable env : Env World.

Lemma call_quiet :
  forall (a : attr World) args kwargs, Quiet (call a args kwargs).
Proof. intros a args kwargs. unfold call. quiet. Qed.

Lemma call_class_quiet :
  forall (c : mattr World) src out kwargs, Quiet (call_class c src out kwargs).
Proof. intros c src out kwargs. unfold call_class. quiet. Qed.

Hint Resolve call_quiet call_class_quiet : engine_quiet.

Lemma download_from_s3_quiet :
  forall name kwargs, Quiet (download_from_s3 env name kwargs).
Proof. intros name kwargs. unfold download_from_s3. quiet. Qed.

Hint Resolve download_from_s3_quiet : engine_quiet.

Lemma load_parser_from_s3_quiet :
  forall file class_name kwargs,
    Quiet (load_parser_from_s3 env file class_name kwargs).
Proof.
  intros file class_name kwargs.
  unfold load_parser_from_s3, load_parser_from_s3_body. quiet.
Qed.

Lemma resolve_paths_quiet : forall obj, Quiet (@resolve_paths World obj).
Proof. intros obj. unfold resolve_paths. quiet. Qed.

Lemma create_local_quiet :
  forall m cn src out options, Quiet (create_local env m cn src out options).
Proof. intros m cn src out options. unfold create_local. quiet. Qed.

Hint Resolve load_parser_from_s3_quiet resolve_paths_quiet
  create_local_quiet : engine_quiet.

Lemma create_parser_quiet :
  forall obj options, Quiet (create_parser env obj options).
Proof. intros obj options. unfold create_parser. quiet. Qed.

Lemma dispatch_quiet :
  forall parser operation_name options,
    Quiet (dispatch env parser operation_name options).
Proof.
  intros parser operation_name options. unfold dispatch.
  destruct parser; quiet.
Qed.

Hint Resolve create_parser_quiet dispatch_quiet : engine_quiet.

Lemma execute_transformation_quiet :
  forall obj operation_name options,
    Quiet (execute_transformation env obj operation_name options).
Proof.
  intros obj operation_name options.
  unfold execute_transformation, execute_transformation_body. quiet.
Qed.

(** The executor returns: whatever its [try] suite does, the result is a
    boolean. *)
Lemma execute_transformation_returns :
  forall obj operation_name options w,
    exists success w' lg,
      execute_transformation env obj operation_name options w
      = (Ret success, w', lg).
Proof.
  intros obj operation_name options w.
  unfold execute_transformation, try_except.
  destruct (execute_transformation_body env obj operation_name options w)
    as [[[b|e] w1] l1].
  - eauto.
  - cbn. eauto.
Qed.

(** In the engine, where every raise is an exception derived from
    [Exception] that can be formatted, the executor returns a boolean
    for every object, operation name and options, and an exception
    raised anywhere in its [try] suite becomes the outcome [False],
    logged as an error. *)
Theorem execute_transformation_never_raises :
  forall obj operation_name options w,
    (exists success w' lg,
        execute_transformation env obj operation_name options w
        = (Ret success, w', lg)) /\
    (forall e w1 lg1,
        execute_transformation_body env obj operation_name options w
        = (Raise e, w1, lg1) ->
        execute_transformation env obj operation_name options w
        = (Ret false, w1, (lg1 ++ [EngineLog (MsgExecutionError e) true])%list)).
Proof.
  intros obj operation_name options w. split.
  - apply execute_transformation_returns.
  - intros e w1 lg1 H. unfold execute_transformation, try_except.
    rewrite H. reflexivity.
Qed.

(** The result of the executor when the created parser has a dispatcher. *)
Lemma dispatch_run_operation :
  forall parser operation_name options run_op w,
    obj_getattr env parser "run_operation" = Some run_op ->
    dispatch env parser operation_name options w =
    match call run_op [operation_name] [] w with
    | (Ret result, w', lg) => (Ret (is_not_False result), w', lg)
    | (Raise e, w', lg) => (Raise e, w', lg)
    end.
Proof.
  intros parser operation_name options run_op w H.
  unfold dispatch. destruct parser as [|b|members].
  - discriminate.
  - rewrite H. unfold bind.
    destruct (call run_op [operation_name] [] w) as [[[v|e] w1] l1];
      cbn; rewrite ?app_nil_r; reflexivity.
  - rewrite H. unfold bind.
    destruct (call run_op [operation_name] [] w) as [[[v|e] w1] l1];
      cbn; rewrite ?app_nil_r; reflexivity.
Qed.

(** C4: when the created parser has the attribute [run_operation], the
    executor calls it with the operation name and nothing else: a
    returned [False] is a failed outcome, every other returned value is
    success, a raise is a failed outcome, and the result is the same for
    every object with this dispatcher, whatever other members (one named
    like the operation, [process]) the object has. *)
Theorem dispatch_through_run_operation :
  forall obj operation_name options w parser w1 l1 run_op,
    create_parser env obj options w = (Ret parser, w1, l1) ->
    obj_getattr env parser "run_operation" = Some run_op ->
    (forall result w2 l2,
        call run_op [operation_name] [] w1 = (Ret result, w2, l2) ->
        execute_transformation env obj operation_name options w
        = (Ret (is_not_False result), w2, (l1 ++ l2)%list) /\
        (result = JBool false ->
         execute_transformation env obj operation_name options w
         = (Ret false, w2, (l1 ++ l2)%list)) /\
        (result <> JBool false ->
         execute_transformation env obj operation_name options w
         = (Ret true, w2, (l1 ++ l2)%list))) /\
    (forall e w2 l2,
        call run_op [operation_name] [] w1 = (Raise e, w2, l2) ->
        execute_transformation env obj operation_name options w
        = (Ret false, w2,
           ((l1 ++ l2) ++ [EngineLog (MsgExecutionError e) true])%list)) /\
    (forall other,
        obj_getattr env other "run_operation" = Some run_op ->
        dispatch env other operation_name options w1
        = dispatch env parser operation_name options w1).
Proof.
  intros obj operation_name options w parser w1 l1 run_op Hc Hr.
  assert (Hd := dispatch_run_operation parser operation_name options run_op w1 Hr).
  split; [|split].
  - intros result w2 l2 H.
    assert (E : execute_transformation env obj operation_name options w
                = (Ret (is_not_False result), w2, (l1 ++ l2)%list)).
    { unfold execute_transformation, try_except,
        execute_transformation_body, bind.
      rewrite Hc, Hd, H. reflexivity. }
    split; [exact E|]. split.
    + intros ->. exact E.
    + intros Hne. rewrite E.
      destruct result as [|[|]| | | |]; try reflexivity. congruence.
  - intros e w2 l2 H.
    unfold execute_transformation, try_except,
      execute_transformation_body, bind.
    rewrite Hc, Hd, H. reflexivity.
  - intros other Ho. rewrite Hd.
    apply (dispatch_run_operation other operation_name options run_op w1 Ho).
Qed.

(** C8 (amended): [run_operation] raises [ValueError] when the name is
    not among the available operations and [NotImplementedError] when it
    is but no callable member has that name, in both cases without
    touching the world; otherwise it calls the member without arguments
    and does what the member does: it returns the member's result
    unchanged, or raises what the member raises. *)
Theorem run_operation_contract :
  forall (self : parser_self World) operation_name w,
    (is_available self operation_name = false ->
       exists text,
         run_operation self operation_name w = (Raise (ValueError text), w, [])) /\
    (is_available self operation_name = true ->
       callable_member self operation_name = None ->
       exists text,
         run_operation self operation_name w
         = (Raise (NotImplementedError text), w, [])) /\
    (is_available self operation_name = true ->
       forall method,
         callable_member self operation_name = Some method ->
         run_operation self operation_name w = method [] [] w).
Proof.
  intros self operation_name w. unfold run_operation. split; [|split].
  - intros H. rewrite H. eexists. reflexivity.
  - intros H Hm. rewrite H, Hm. eexists. reflexivity.
  - intros H method Hm. rewrite H, Hm. reflexivity.
Qed.


(** ** Resolution *)

Lemma resolve_paths_strings :
  forall obj origin destiny class_name (w : World),
    subscript obj "origin" = Ret (JStr origin) ->
    subscript obj "destiny" = Ret (JStr destiny) ->
    subscript obj "classname" = Ret (JStr class_name) ->
    resolve_paths obj w
    = (Ret (s3_to_local origin, s3_to_local destiny, JStr class_name), w, []).
Proof.
  intros obj origin destiny class_name w Ho Hd Hc.
  unfold resolve_paths, bind, lift. rewrite Ho. cbn.
  rewrite Hd. cbn. rewrite Hc. reflexivity.
Qed.

(** When reading the paths or the class name fails, [create_parser]
    returns [False], not [None]. *)
Lemma create_parser_early_failure :
  forall obj options e w w1 l1,
    resolve_paths obj w = (Raise e, w1, l1) ->
    create_parser env obj options w
    = (Ret (OBool false), w1, (l1 ++ [EngineLog (MsgError e) true])%list).
Proof.
  intros obj options e w w1 l1 H.
  unfold create_parser, try_except, bind. rewrite H. cbn.
  rewrite app_nil_r. reflexivity.
Qed.

(** Dispatching on [False] raises unless the boolean has an attribute
    named like the dispatcher, the operation or [process]. *)
Lemma dispatch_on_False_raises :
  forall operation_name options w,
    bool_getattr env false "run_operation" = None ->
    (forall name, operation_name = JStr name ->
                  bool_getattr env false name = None) ->
    bool_getattr env false "process" = None ->
    exists e,
      dispatch env (OBool false) operation_name options w = (Raise e, w, []).
Proof.
  intros operation_name options w Hr Hn Hp.
  unfold dispatch, obj_getattr. rewrite Hr. unfold bind, lift.
  destruct operation_name as [| | |name| |]; cbn; try (eexists; reflexivity).
  rewrite (Hn name eq_refl), Hp. cbn. eexists. reflexivity.
Qed.


(** Without a bucket in the options nothing is fetched: the result is
    [None] and the world is as before. *)
Lemma load_parser_from_s3_no_bucket :
  forall file class_name kwargs e w,
    subscript kwargs "scripts_bucket" = Raise e ->
    load_parser_from_s3 env file class_name kwargs w
    = (Ret None, w, [EngineLog (MsgS3Unavailable file) false]).
Proof.
  intros file class_name kwargs e w H.
  unfold load_parser_from_s3, load_parser_from_s3_body, download_from_s3,
    try_except, bind, lift.
  rewrite H. cbn. destruct e; reflexivity.
Qed.

(** [create_parser] once the paths and the class name are read. *)
Lemma create_parser_resolved :
  forall obj options origin destiny class_name w remote w1 l1,
    subscript obj "origin" = Ret (JStr origin) ->
    subscript obj "destiny" = Ret (JStr destiny) ->
    subscript obj "classname" = Ret (JStr class_name) ->
    load_parser_from_s3 env (camel_to_snake class_name) class_name options w
    = (Ret remote, w1, l1) ->
    create_parser env obj options w =
    let '(r, w2, l2) :=
      match remote with
      | Some c =>
          if truthy_class remote
          then call_class c (s3_to_local origin) (s3_to_local destiny) [] w1
          else bind (log (MsgLocalLoaded (camel_to_snake class_name)) false)
                 (fun _ => create_local env (camel_to_snake class_name)
                             class_name (s3_to_local origin)
                             (s3_to_local destiny) options) w1
      | None =>
          bind (log (MsgLocalLoaded (camel_to_snake class_name)) false)
            (fun _ => create_local env (camel_to_snake class_name)
                        class_name (s3_to_local origin)
                        (s3_to_local destiny) options) w1
      end in
    (r, w2, (l1 ++ l2)%list).
Proof.
  intros obj options origin destiny class_name w remote w1 l1 Ho Hd Hc Hl.
  unfold create_parser. unfold bind at 1. unfold try_except, bind at 1.
  rewrite (resolve_paths_strings obj origin destiny class_name w Ho Hd Hc).
  cbn. unfold bind at 1. rewrite Hl. unfold bind, log.
  destruct remote as [c|].
  - destruct (truthy_class (Some c)).
    + destruct (call_class c (s3_to_local origin) (s3_to_local destiny) [] w1)
        as [[r w2] l2]. reflexivity.
    + destruct (create_local env (camel_to_snake class_name) class_name
                  (s3_to_local origin) (s3_to_local destiny) options w1)
        as [[r w2] l2]. reflexivity.
  - destruct (create_local env (camel_to_snake class_name) class_name
                (s3_to_local origin) (s3_to_local destiny) options w1)
      as [[r w2] l2]. reflexivity.
Qed.

End Properties.

Section Resolution.

Context {World : Type}.
Variable env : Env World.


End Resolution.

(** ** The job loop *)

Section JobLoop.

Context {World : Type}.
Variable env : Env World.

Lemma well_formed_inv :
  forall t,
    well_formed t = true ->
    exists obj operation_name options,
      subscript t "object" = Ret obj /\
      subscript obj "parser" = Ret operation_name /\
      dict_get t "kwargs" (JDict []) = Ret options.
Proof.
  intros t H. unfold well_formed in H.
  destruct (subscript t "object") as [obj|e] eqn:Eo; [|discriminate].
  destruct (subscript obj "parser") as [op|e] eqn:Ep; [|discriminate].
  destruct t; try discriminate.
  unfold dict_get. destruct (lookup "kwargs" d); eauto 6.
Qed.

Lemma run_transformation_outcome :
  forall t w obj operation_name options success w' lg,
    subscript t "object" = Ret obj ->
    subscript obj "parser" = Ret operation_name ->
    dict_get t "kwargs" (JDict []) = Ret options ->
    execute_transformation env obj operation_name options w
    = (Ret success, w', lg) ->
    exists lg',
      run_transformation env t w = (Ret tt, w', lg') /\
      outcomes lg' = [success].
Proof.
  intros t w obj op options success w' lg Ho Hp Hk He.
  unfold run_transformation, bind, lift, log.
  rewrite Ho. cbn. rewrite Hk. cbn. rewrite Hp. cbn. rewrite He.
  pose proof (execute_transformation_quiet env obj op options _ _ _ _ He) as Hq.
  destruct success; eexists; (split; [reflexivity|]);
    cbn; rewrite outcomes_app, Hq; reflexivity.
Qed.

Lemma run_transformation_well_formed :
  forall t w,
    well_formed t = true ->
    exists success w' lg,
      run_transformation env t w = (Ret tt, w', lg) /\
      outcomes lg = [success].
Proof.
  intros t w H.
  destruct (well_formed_inv t H) as [obj [op [options [Ho [Hp Hk]]]]].
  destruct (execute_transformation_returns env obj op options w)
    as [success [w' [lg He]]].
  destruct (run_transformation_outcome t w obj op options success w' lg
              Ho Hp Hk He) as [lg' [Hr Hq]].
  eauto.
Qed.



Lemma for_each_well_formed :
  forall items w,
    forallb well_formed items = true ->
    exists w' lg,
      for_each (run_transformation env) items w = (Ret tt, w', lg) /\
      length (outcomes lg) = length items.
Proof.
  induction items as [|t items IH]; intros w H.
  - exists w, []. split; reflexivity.
  - cbn [forallb] in H. apply andb_true_iff in H. destruct H as [Ht Hi].
    destruct (run_transformation_well_formed t w Ht)
      as [success [w1 [l1 [Hr Hq]]]].
    destruct (IH w1 Hi) as [w2 [l2 [Hf Hl]]].
    exists w2, (l1 ++ l2)%list. split.
    + cbn [for_each]. unfold bind. rewrite Hr, Hf. reflexivity.
    + rewrite outcomes_app, length_app, Hq, Hl. reflexivity.
Qed.

Lemma for_each_app :
  forall (A : Type) (body : A -> M World unit) a b w w1 l1,
    for_each body a w = (Ret tt, w1, l1) ->
    for_each body (a ++ b) w =
    let '(r, w2, l2) := for_each body b w1 in (r, w2, (l1 ++ l2)%list).
Proof.
  intros A body a b. induction a as [|x a IH]; intros w w1 l1 H.
  - cbn in H. inversion H; subst. cbn [app].
    destruct (for_each body b w1) as [[r w2] l2]. reflexivity.
  - cbn [for_each app] in *. unfold bind in *.
    destruct (body x w) as [[[u|e] wx] lx]; [|discriminate].
    destruct (for_each body a wx) as [[r wa] la] eqn:Ea.
    inversion H; subst.
    rewrite (IH wx w1 la Ea).
    destruct (for_each body b w1) as [[r2 w2] l2].
    rewrite app_assoc. reflexivity.
Qed.




End JobLoop.

(* ================================================================== *)
(** * Concrete runs                                                    *)
(* ================================================================== *)

Lemma execute_transformation_never_raises_witness :
  execute_transformation (demo_env true) numeric_class_object
    (JStr "process") (JDict []) []
  = (Ret false, [],
     ([] ++ [EngineLog
               (MsgExecutionError
                  (TypeError "expected string or bytes-like object")) true])%list).
Proof.
  apply (proj2 (execute_transformation_never_raises (demo_env true)
                  numeric_class_object (JStr "process") (JDict []) [])).
  reflexivity.
Defined.






Lemma dispatch_through_run_operation_witness :
  (exists lg,
      execute_transformation (demo_env true) check_object (JStr "check")
        (JDict []) []
      = (Ret false, [], lg)) /\
  (exists lg,
      execute_transformation (demo_env true) make_object (JStr "make")
        (JDict []) []
      = (Ret true, ["s3/out/a"], lg)).
Proof.
  split.
  - edestruct (dispatch_through_run_operation (demo_env true) check_object
                 (JStr "check") (JDict []) []) as [H _];
      [reflexivity|reflexivity|].
    edestruct (H (JBool false)) as [_ [E _]]; [reflexivity|].
    eexists. apply E. reflexivity.
  - edestruct (dispatch_through_run_operation (demo_env true) make_object
                 (JStr "make") (JDict []) []) as [H _];
      [reflexivity|reflexivity|].
    edestruct (H (JBool true)) as [_ [_ E]]; [reflexivity|].
    eexists. apply E. discriminate.
Defined.

Lemma run_operation_contract_witness :
  exists text,
    run_operation failing_self (JStr "unzip") tt
    = (Raise (ValueError text), tt, []).
Proof.
  apply (proj1 (run_operation_contract failing_self (JStr "unzip") tt)).
  reflexivity.
Defined.

(** C8, as stated, fails: the name [process] is available and a callable
    member of that name exists, and [run_operation] raises all the same,
    because the member does. *)
Lemma run_operation_raises_counterexample :
  ~ ((exists e w lg,
         run_operation failing_self (JStr "process") tt = (Raise e, w, lg)) <->
     (is_available failing_self (JStr "process") = false \/
      callable_member failing_self (JStr "process") = None)).
Proof.
  intros [H _].
  destruct H as [H|H].
  - exists (OtherError "boom"), tt, []. reflexivity.
  - discriminate H.
  - discriminate H.
Qed.

(** C5 at a remotely resolved class: the class found in the remote store
    is called with the two paths only, so the instance sees no options,
    while the same class resolved locally receives them. *)
Theorem remote_class_called_without_options :
  (exists parser,
      create_parser (demo_env true) legacy_object (JDict remote_options) []
      = (Ret parser, [], [EngineLog (MsgS3Loaded "legacy_parser") false]) /\
      obj_getattr (demo_env true) parser "options"
      = Some (ADatum (JDict []))) /\
  (exists parser,
      create_parser (demo_env true) legacy_object
        (JDict [("password", JStr "secret")]) []
      = (Ret parser, [],
         [EngineLog (MsgS3Unavailable "legacy_parser") false;
          EngineLog (MsgLocalLoaded "legacy_parser") false]) /\
      obj_getattr (demo_env true) parser "options"
      = Some (ADatum (JDict [("password", JStr "secret")]))).
Proof.
  split; eexists; split; reflexivity.
Qed.

(** C10 at an object without [origin] and the operation [bit_length]:
    [create_parser] returns [False], the executor finds the attribute
    [bit_length] on it, calls it, and reports success; the run log shows
    the transformation as completed. *)
Theorem failed_creation_reported_as_success :
  create_parser (demo_env true) originless_object (JDict []) []
  = (Ret (OBool false), [], [EngineLog (MsgError (KeyError "origin")) true]) /\
  execute_transformation (demo_env true) originless_object
    (JStr "bit_length") (JDict []) []
  = (Ret true, [], [EngineLog (MsgError (KeyError "origin")) true]) /\
  outcomes (snd (run_job (demo_env true)
                   (Ret (job_of [JDict [("object", originless_object)]])) []))
  = [true].
Proof.
  split; [|split]; reflexivity.
Qed.

(* ================================================================== *)
(** * What leaves the executor                                         *)
(* ================================================================== *)

Section EscapesProperties.

Context {World : Type}.

Lemma escapes_bind_agrees :
  forall (A B : Type) (m : M World A) (f : A -> M World B) w,
    Escapes.bind (escapes_of_engine m) (fun a => escapes_of_engine (f a)) w
    = escapes_of_engine (bind m f) w.
Proof.
  intros A B m f w. unfold Escapes.bind, escapes_of_engine, bind.
  destruct (m w) as [[[a|e] w1] l1]; cbn [escapes_of_res]; [|reflexivity].
  destruct (f a w1) as [[r w2] l2]. reflexivity.
Qed.

Lemma escapes_lift_agrees :
  forall (A : Type) (r : res A) (w : World),
    Escapes.lift r w = escapes_of_engine (lift r) w.
Proof. intros A r w. destruct r; reflexivity. Qed.

Lemma escapes_call_agrees :
  forall (a : attr World) args kwargs w,
    Escapes.call (escapes_of_attr a) args kwargs w
    = escapes_of_engine (call a args kwargs) w.
Proof.
  intros a args kwargs w. destruct a as [v|f]; [reflexivity|].
  unfold Escapes.call, escapes_of_attr, Escapes.run_plugin, escapes_of_plug,
    escapes_of_engine, call, run_plugin.
  destruct (f args kwargs w) as [[r w1] l1]. reflexivity.
Qed.

Lemma escapes_getattr_agrees :
  forall (env : Env World) parser name,
    Escapes.obj_getattr (escapes_of_bool_getattr env) (escapes_of_obj parser)
      name
    = option_map escapes_of_attr (obj_getattr env parser name).
Proof. intros env parser name. destruct parser; reflexivity. Qed.

Lemma escapes_call_then_agrees :
  forall (a : attr World) args kwargs (k : json -> bool) w,
    Escapes.bind (Escapes.call (escapes_of_attr a) args kwargs)
      (fun v => Escapes.ret (k v)) w
    = escapes_of_engine (bind (call a args kwargs) (fun v => ret (k v))) w.
Proof.
  intros a args kwargs k w.
  unfold Escapes.bind. rewrite escapes_call_agrees.
  unfold escapes_of_engine, bind.
  destruct (call a args kwargs w) as [[[v|e] w1] l1]; reflexivity.
Qed.

Lemma escapes_bind_ret :
  forall (A B : Type) (a : A) (f : A -> Escapes.XM World B) w,
    Escapes.bind (Escapes.ret a) f w = f a w.
Proof.
  intros A B a f w. unfold Escapes.bind, Escapes.ret.
  destruct (f a w) as [[r w2] l2]. reflexivity.
Qed.

Lemma bind_ret :
  forall (A B : Type) (a : A) (f : A -> M World B) w,
    bind (ret a) f w = f a w.
Proof.
  intros A B a f w. unfold bind, ret.
  destruct (f a w) as [[r w2] l2]. reflexivity.
Qed.

(** The three tiers of the dispatch, over two attribute tables that
    agree. *)
Lemma escapes_tiers_agree :
  forall (xg : string -> option (Escapes.attr World))
         (g : string -> option (attr World)),
    (forall name, xg name = option_map escapes_of_attr (g name)) ->
    forall operation_name options w,
      match xg "run_operation" with
      | Some run_operation =>
          Escapes.bind (Escapes.call run_operation [operation_name] [])
            (fun result => Escapes.ret (is_not_False result))
      | None =>
          Escapes.bind (Escapes.lift (attr_name operation_name))
            (fun name =>
             match xg name with
             | Some method =>
                 Escapes.bind (Escapes.lift (unpack options))
                   (fun kwargs =>
                    Escapes.bind (Escapes.call method [] kwargs)
                      (fun _ => Escapes.ret true))
             | None =>
                 match xg "process" with
                 | Some process =>
                     Escapes.bind (Escapes.call process [] [])
                       (fun _ => Escapes.ret true)
                 | None =>
                     Escapes.raise
                       (Escapes.Exc
                          (AttributeError "object has no attribute 'process'")
                          None)
                 end
             end)
      end w =
      escapes_of_engine
        match g "run_operation" with
        | Some run_operation =>
            bind (call run_operation [operation_name] [])
              (fun result => ret (is_not_False result))
        | None =>
            bind (lift (attr_name operation_name))
              (fun name =>
               match g name with
               | Some method =>
                   bind (lift (unpack options))
                     (fun kwargs =>
                      bind (call method [] kwargs) (fun _ => ret true))
               | None =>
                   match g "process" with
                   | Some process =>
                       bind (call process [] []) (fun _ => ret true)
                   | None =>
                       raise (AttributeError "object has no attribute 'process'")
                   end
               end)
        end w.
Proof.
  intros xg g H op options w.
  rewrite (H "run_operation").
  destruct (g "run_operation") as [run_op|]; cbn [option_map].
  - apply (escapes_call_then_agrees run_op [op] [] is_not_False).
  - destruct op as [| | |name| |]; try reflexivity.
    cbn [attr_name Escapes.lift].
    change (lift (Ret name)) with (@ret World string name).
    unfold escapes_of_engine at 1.
    rewrite escapes_bind_ret, bind_ret. rewrite (H name).
    destruct (g name) as [method|]; cbn [option_map].
    + destruct options as [| | | | |kwargs]; try reflexivity.
      cbn [unpack Escapes.lift].
      change (lift (Ret kwargs)) with (@ret World _ kwargs).
      rewrite escapes_bind_ret, bind_ret.
      apply (escapes_call_then_agrees method [] kwargs (fun _ => true)).
    + rewrite (H "process").
      destruct (g "process") as [process|]; cbn [option_map].
      * apply (escapes_call_then_agrees process [] [] (fun _ => true)).
      * reflexivity.
Qed.

(** On the objects of the engine the dispatch here is the dispatch
    there. *)
Lemma escapes_dispatch_agrees :
  forall (env : Env World) parser operation_name options w,
    Escapes.dispatch (escapes_of_bool_getattr env) (escapes_of_obj parser)
      operation_name options w
    = escapes_of_engine (dispatch env parser operation_name options) w.
Proof.
  intros env parser op options w.
  assert (G := escapes_getattr_agrees env parser).
  unfold Escapes.dispatch, dispatch.
  destruct parser as [|b|members]; [reflexivity| |].
  - exact (escapes_tiers_agree _ (obj_getattr env (OBool b)) G op options w).
  - exact (escapes_tiers_agree _ (obj_getattr env (OInst members)) G
             op options w).
Qed.

(** With [create_parser] and parser code as the engine has them, the
    executor here is the executor there. *)
Lemma escapes_execute_agrees :
  forall (env : Env World) obj operation_name options w,
    Escapes.execute_transformation (escapes_of_bool_getattr env)
      (escapes_of_created (create_parser env obj options))
      operation_name options w
    = escapes_of_engine
        (execute_transformation env obj operation_name options) w.
Proof.
  intros env obj op options w.
  unfold Escapes.execute_transformation, Escapes.try_except,
    Escapes.execute_transformation_body.
  unfold execute_transformation, try_except, execute_transformation_body.
  unfold escapes_of_engine at 1.
  unfold Escapes.bind at 1, bind at 1, escapes_of_created.
  destruct (create_parser env obj options w) as [[[parser|e] w1] l1].
  - rewrite escapes_dispatch_agrees. unfold escapes_of_engine.
    destruct (dispatch env parser op options w1) as [[[b|e] w2] l2];
      reflexivity.
  - reflexivity.
Qed.

(** C1 (amended): the executor returns the boolean of its [try] suite
    when the suite returns, and [False] with one error line when the
    suite raises an exception that derives from [Exception] and can be
    formatted, wherever it was raised (creating the parser, dispatching,
    running the operation); an exception that derives from
    [BaseException] only leaves the executor.  With [create_parser] and
    parser code that raise nothing else, it returns a boolean for every
    object, operation name and options. *)
Theorem execute_transformation_contains_exceptions :
  (forall bool_attr (created : Escapes.XM World (Escapes.pyobj World))
          operation_name options w r w1 l1,
      Escapes.execute_transformation_body bool_attr created
        operation_name options w = (r, w1, l1) ->
      (forall success,
          r = Escapes.XRet success ->
          Escapes.execute_transformation bool_attr created
            operation_name options w = (Escapes.XRet success, w1, l1)) /\
      (forall e,
          r = Escapes.XRaise (Escapes.Exc e None) ->
          Escapes.execute_transformation bool_attr created
            operation_name options w
          = (Escapes.XRet false, w1,
             (l1 ++ [EngineLog (MsgExecutionError e) true])%list)) /\
      (forall name,
          r = Escapes.XRaise (Escapes.Exit name) ->
          Escapes.execute_transformation bool_attr created
            operation_name options w
          = (Escapes.XRaise (Escapes.Exit name), w1, l1))) /\
  (forall (env : Env World) obj operation_name options w,
      exists success w' lg,
        Escapes.execute_transformation (escapes_of_bool_getattr env)
          (escapes_of_created (create_parser env obj options))
          operation_name options w = (Escapes.XRet success, w', lg) /\
        execute_transformation env obj operation_name options w
        = (Ret success, w', lg)).
Proof.
  split.
  - intros bool_attr created op options w r w1 l1 H.
    unfold Escapes.execute_transformation, Escapes.try_except. rewrite H.
    split; [|split].
    + intros success ->. reflexivity.
    + intros e ->. reflexivity.
    + intros name ->. reflexivity.
  - intros env obj op options w.
    destruct (execute_transformation_returns env obj op options w)
      as [success [w' [lg H]]].
    exists success, w', lg. split; [|exact H].
    rewrite escapes_execute_agrees. unfold escapes_of_engine.
    rewrite H. reflexivity.
Qed.

End EscapesProperties.

Lemma execute_transformation_contains_exceptions_witness :
  Escapes.execute_transformation (escapes_of_bool_getattr (demo_env true))
    (escapes_of_created
       (create_parser (demo_env true) numeric_class_object (JDict [])))
    (JStr "process") (JDict []) []
  = (Escapes.XRet false, [],
     ([] ++ [EngineLog
               (MsgExecutionError
                  (TypeError "expected string or bytes-like object")) true])%list).
Proof.
  apply (proj1 (proj2 (proj1 execute_transformation_contains_exceptions
                         (escapes_of_bool_getattr (demo_env true))
                         (escapes_of_created
                            (create_parser (demo_env true)
                               numeric_class_object (JDict [])))
                         (JStr "process") (JDict []) [] _ [] [] eq_refl))).
  reflexivity.
Defined.

(** C1, as stated, fails: a parser whose [process] ends the interpreter
    makes the executor propagate [SystemExit] instead of returning a
    boolean; and an exception that cannot be formatted for the log line
    leaves the handler as the [TypeError] of the formatting. *)
Lemma execute_transformation_escapes_counterexample :
  (Escapes.execute_transformation (escapes_of_bool_getattr (demo_env true))
     (Escapes.ret exiting_parser) (JStr "process") (JDict []) []
   = (Escapes.XRaise (Escapes.Exit "SystemExit"), [], []) /\
   ~ exists success w' lg,
       Escapes.execute_transformation (escapes_of_bool_getattr (demo_env true))
         (Escapes.ret exiting_parser) (JStr "process") (JDict []) []
       = (Escapes.XRet success, w', lg)) /\
  (Escapes.execute_transformation (escapes_of_bool_getattr (demo_env true))
     (Escapes.ret unprintable_parser) (JStr "unzip") (JDict []) []
   = (Escapes.XRaise
        (Escapes.Exc (TypeError "__str__ returned non-string") None), [], []) /\
   ~ exists success w' lg,
       Escapes.execute_transformation (escapes_of_bool_getattr (demo_env true))
         (Escapes.ret unprintable_parser) (JStr "unzip") (JDict []) []
       = (Escapes.XRet success, w', lg)).
Proof.
  split; split; try reflexivity.
  - intros [success [w' [lg H]]]. discriminate H.
  - intros [success [w' [lg H]]]. discriminate H.
Qed.

(* ================================================================== *)
(** * Further properties: names and paths                              *)
(* ================================================================== *)

Lemma without_underscores_app :
  forall a b,
    without_underscores (a ++ b) = without_underscores a ++ without_underscores b.
Proof.
  induction a as [|c a IH]; intros b; cbn [append without_underscores].
  - reflexivity.
  - destruct (Ascii.eqb c "_"); rewrite IH; reflexivity.
Qed.

Lemma span_lower_app :
  forall s run rest, span_lower s = (run, rest) -> s = run ++ rest.
Proof.
  induction s as [|c tl IH]; intros run rest H; cbn [span_lower] in H.
  - inversion H. reflexivity.
  - destruct (is_lower c).
    + destruct (span_lower tl) as [r1 r2] eqn:E. inversion H; subst.
      cbn [append]. rewrite <- (IH r1 rest eq_refl). reflexivity.
    + inversion H. reflexivity.
Qed.

Lemma match_word_inserts :
  forall s repl rest,
    match_word s = Some (repl, rest) ->
    without_underscores (repl ++ rest) = without_underscores s.
Proof.
  intros s repl rest H. unfold match_word in H.
  destruct s as [|c [|u [|l tl]]]; try discriminate.
  destruct (negb (is_newline c) && is_upper u && is_lower l); [|discriminate].
  destruct (span_lower tl) as [run rest'] eqn:E.
  inversion H; subst. apply span_lower_app in E. subst tl.
  cbn [append without_underscores]. rewrite Ascii.eqb_refl. reflexivity.
Qed.

Lemma match_hump_inserts :
  forall s repl rest,
    match_hump s = Some (repl, rest) ->
    without_underscores (repl ++ rest) = without_underscores s.
Proof.
  intros s repl rest H. unfold match_hump in H.
  destruct s as [|a [|u tl]]; try discriminate.
  destruct ((is_lower a || is_digit a) && is_upper u); [|discriminate].
  inversion H; subst.
  cbn [append without_underscores]. rewrite Ascii.eqb_refl. reflexivity.
Qed.

(** A substitution whose replacements only insert underscores keeps the
    other characters. *)
Lemma sub_inserts_underscores :
  forall m,
    consuming m ->
    (forall s repl rest,
        m s = Some (repl, rest) ->
        without_underscores (repl ++ rest) = without_underscores s) ->
    forall n s, String.length s <= n ->
      without_underscores (sub m s) = without_underscores s.
Proof.
  intros m Hc Hm. induction n as [|n IH]; intros s Hn.
  - destruct s; [reflexivity|simpl in Hn; lia].
  - destruct s as [|c tl]; [reflexivity|].
    rewrite (sub_cons m Hc).
    destruct (m (String c tl)) as [[repl rest]|] eqn:E.
    + pose proof (Hc _ _ _ E) as Hlen. simpl in Hlen, Hn.
      rewrite without_underscores_app, IH by lia.
      rewrite <- without_underscores_app. apply (Hm _ _ _ E).
    + cbn [without_underscores]. simpl in Hn.
      rewrite IH by lia. reflexivity.
Qed.

Lemma lower_char_underscore :
  forall c, Ascii.eqb (lower_char c) "_" = Ascii.eqb c "_".
Proof.
  intros c.
  destruct c as [[|] [|] [|] [|] [|] [|] [|] [|]]; reflexivity.
Qed.

Lemma without_underscores_lower :
  forall s, without_underscores (lower s) = lower (without_underscores s).
Proof.
  induction s as [|c tl IH]; cbn [lower without_underscores]; [reflexivity|].
  rewrite lower_char_underscore.
  destruct (Ascii.eqb c "_"); cbn [lower]; rewrite IH; reflexivity.
Qed.

(** X1: the two substitutions of the name conversion only insert
    underscores: the string that is lowercased at the end is the name,
    once the underscores are taken out of both; and the result has no
    capital A-Z. *)
Theorem camel_to_snake_only_inserts_underscores :
  forall name,
    let inserted := sub match_hump (sub match_word name) in
    camel_to_snake name = lower inserted /\
    without_underscores inserted = without_underscores name /\
    no_upper (camel_to_snake name) = true.
Proof.
  intros name inserted. split; [reflexivity|]. split.
  - unfold inserted.
    rewrite (sub_inserts_underscores match_hump match_hump_consuming
               match_hump_inserts _ _ (Nat.le_refl _)).
    apply (sub_inserts_underscores match_word match_word_consuming
             match_word_inserts _ _ (Nat.le_refl _)).
  - unfold camel_to_snake. apply lower_no_upper.
Qed.

Lemma s3_to_local_length :
  forall n s, String.length s <= n ->
    String.length (s3_to_local s) <= String.length s.
Proof.
  induction n as [|n IH]; intros s Hn.
  - destruct s; [simpl; lia|simpl in Hn; lia].
  - destruct s as [|c tl]; [simpl; lia|].
    rewrite s3_to_local_cons.
    destruct (starts_with "s3://" (String c tl)) eqn:E.
    + apply starts_with_inv in E. destruct E as [rest E]. rewrite E.
      cbn [skip append String.length].
      assert (String.length (s3_to_local rest) <= String.length rest).
      { apply IH. rewrite E in Hn. simpl in Hn. lia. }
      lia.
    + cbn [String.length]. simpl in Hn.
      assert (String.length (s3_to_local tl) <= String.length tl)
        by (apply IH; lia).
      lia.
Qed.

(** X2: a resolved path never contains the remote scheme, it is never
    longer than the reference, and the references the mapping leaves
    unchanged are exactly those without the scheme. *)
Theorem s3_to_local_removes_scheme :
  forall ref,
    occurs_s3 (s3_to_local ref) = false /\
    String.length (s3_to_local ref) <= String.length ref /\
    (s3_to_local ref = ref <-> occurs_s3 ref = false).
Proof.
  intros ref.
  assert (H : occurs_s3 (s3_to_local ref) = false)
    by (apply (s3_to_local_no_occurrence (String.length ref)); lia).
  split; [exact H|]. split.
  - apply (s3_to_local_length (String.length ref)). lia.
  - split.
    + intros E. rewrite E in H. exact H.
    + apply s3_to_local_fixed.
Qed.

(** ** [os.path.basename] and the paths built from it *)

Lemma has_slash_app :
  forall a b, has_slash (a ++ b) = has_slash a || has_slash b.
Proof.
  induction a as [|c a IH]; intros b; cbn [append has_slash].
  - reflexivity.
  - rewrite IH, orb_assoc. reflexivity.
Qed.

Lemma basename_no_slash : forall p, has_slash (basename p) = false.
Proof.
  induction p as [|c tl IH]; cbn [basename]; [reflexivity|].
  destruct (has_slash tl) eqn:E; [exact IH|].
  destruct (Ascii.eqb c "/") eqn:F; [exact E|].
  cbn [has_slash]. rewrite F, E. reflexivity.
Qed.

Lemma basename_slash_free : forall p, has_slash p = false -> basename p = p.
Proof.
  intros p H. destruct p as [|c tl]; [reflexivity|].
  cbn [has_slash] in H. apply orb_false_iff in H. destruct H as [Hc Ht].
  cbn [basename]. rewrite Ht, Hc. reflexivity.
Qed.

Lemma basename_after_slash :
  forall dir name,
    has_slash name = false -> basename (dir ++ "/" ++ name) = name.
Proof.
  induction dir as [|c dir IH]; intros name H; cbn [append basename].
  - rewrite H. reflexivity.
  - rewrite has_slash_app. cbn [has_slash]. rewrite Ascii.eqb_refl.
    rewrite orb_true_r. apply IH. exact H.
Qed.

Lemma sub_literal_no_slash :
  forall old new,
    old <> EmptyString -> has_slash new = false ->
    forall n s, String.length s <= n -> has_slash s = false ->
      has_slash (str_replace old new s) = false.
Proof.
  intros old new Hold Hnew. unfold str_replace.
  pose proof (match_literal_consuming old new Hold) as Hc.
  induction n as [|n IH]; intros s Hn Hs.
  - destruct s; [reflexivity|simpl in Hn; lia].
  - destruct s as [|c tl]; [reflexivity|].
    rewrite (sub_cons _ Hc).
    destruct (match_literal old new (String c tl)) as [[repl rest]|] eqn:E.
    + pose proof (Hc _ _ _ E) as Hlen.
      unfold match_literal in E.
      destruct (starts_with old (String c tl)) eqn:F; [|discriminate].
      inversion E; subst repl rest.
      apply starts_with_inv in F. destruct F as [r F].
      assert (Hr : skip (String.length old) (String c tl) = r).
      { rewrite F. clear. induction old as [|a o IHo];
          cbn [String.length append skip]; [reflexivity|exact IHo]. }
      rewrite Hr in *. rewrite F in Hs.
      rewrite has_slash_app in Hs. apply orb_false_iff in Hs.
      destruct Hs as [_ Hs]. rewrite has_slash_app, Hnew. cbn [orb].
      apply IH; [|exact Hs]. simpl in Hlen, Hn. lia.
    + cbn [has_slash] in *. apply orb_false_iff in Hs. destruct Hs as [H1 H2].
      rewrite H1. cbn [orb]. apply IH; [simpl in Hn; lia|exact H2].
Qed.

Lemma starts_with_slash_has_slash :
  forall s, starts_with "/" s = true -> has_slash s = true.
Proof.
  intros s H. apply starts_with_inv in H. destruct H as [r ->].
  reflexivity.
Qed.

(** X3: the CSV path of a conversion is the output directory, a slash
    unless the directory is empty or ends in one, and the base name of
    the source with [.xml] replaced by [.csv]; that name has no slash,
    so joining never drops the output directory. *)
Theorem csv_path_in_output_directory :
  forall source_file output_directory,
    let name := str_replace ".xml" ".csv" (basename source_file) in
    has_slash name = false /\
    csv_path source_file output_directory =
    (if String.eqb output_directory "" || ends_with_slash output_directory
     then output_directory ++ name
     else output_directory ++ "/" ++ name) /\
    starts_with output_directory (csv_path source_file output_directory)
    = true.
Proof.
  intros source_file output_directory name.
  assert (H : has_slash name = false).
  { apply (sub_literal_no_slash ".xml" ".csv") with
      (n := String.length (basename source_file)).
    - discriminate.
    - reflexivity.
    - apply Nat.le_refl.
    - apply basename_no_slash. }
  assert (E : csv_path source_file output_directory =
              (if String.eqb output_directory ""
                  || ends_with_slash output_directory
               then output_directory ++ name
               else output_directory ++ "/" ++ name)).
  { unfold csv_path, path_join. fold name.
    destruct (starts_with "/" name) eqn:F; [|reflexivity].
    apply starts_with_slash_has_slash in F. congruence. }
  split; [exact H|]. split; [exact E|].
  rewrite E.
  destruct (String.eqb output_directory "" || ends_with_slash output_directory);
    apply starts_with_app.
Qed.

(* ================================================================== *)
(** * Further properties: the remote store                             *)
(* ================================================================== *)

Lemma string_app_assoc :
  forall a b c : string, (a ++ b) ++ c = a ++ b ++ c.
Proof.
  induction a as [|x a IH]; intros b c; cbn [append]; [reflexivity|].
  rewrite IH. reflexivity.
Qed.

Section RemoteStore.

Context {World : Type}.
Variable env : Env World.

(** The object key and the local path of a fetch, for a prefix that ends
    in a slash and a file name without one. *)
Lemma download_from_s3_fetch :
  forall name kwargs bucket prefix w,
    subscript kwargs "scripts_bucket" = Ret bucket ->
    subscript kwargs "scripts_path" = Ret (JStr (prefix ++ "/")) ->
    has_slash name = false ->
    download_from_s3 env name kwargs w =
    let local := temp_path env ("s3_download_" ++ name ++ ".py") in
    match download_file env bucket (prefix ++ "/" ++ name ++ ".py") local w with
    | (Ret _, w1, l) => (Ret local, w1, map plugin_entry l)
    | (Raise e, w1, l) =>
        (Raise (OtherError
                  match e with
                  | NoCredentialsError =>
                      "AWS credentials not found. Please configure your AWS credentials."
                  | ClientError _ => "Error downloading from S3: " ++ exn_text e
                  | _ => "Unexpected error downloading from S3: " ++ exn_text e
                  end), w1, map plugin_entry l)
    end.
Proof.
  intros name kwargs bucket prefix w Hb Hp Hn.
  assert (Hbase : basename (prefix ++ "/" ++ name ++ ".py") = name ++ ".py").
  { apply basename_after_slash. rewrite has_slash_app, Hn. reflexivity. }
  unfold download_from_s3, try_except, bind, lift, run_plugin.
  rewrite Hb, Hp. cbv beta iota zeta. cbn [str_add].
  rewrite string_app_assoc, Hbase.
  cbv beta iota.
  destruct (download_file env bucket (prefix ++ "/" ++ name ++ ".py")
              (temp_path env ("s3_download_" ++ name ++ ".py")) w)
    as [[[u|e] w1] l].
  - cbn. rewrite ?app_nil_r. reflexivity.
  - destruct e; cbn; rewrite ?app_nil_r; reflexivity.
Qed.

(** X4: whatever fails in a fetch, the caller sees a plain exception;
    and when the options have no bucket, or no path that is a string,
    the fetch fails before the store is contacted. *)
Theorem download_from_s3_failures :
  forall name kwargs w,
    (forall e w' lg,
        download_from_s3 env name kwargs w = (Raise e, w', lg) ->
        exists text, e = OtherError text) /\
    (lacks_store_keys kwargs = true ->
     exists text,
       download_from_s3 env name kwargs w = (Raise (OtherError text), w, [])).
Proof.
  intros name kwargs w. split.
  - intros e w' lg H. unfold download_from_s3, try_except in H.
    match type of H with
    | context [match ?b w with _ => _ end] =>
        destruct (b w) as [[[p|e0] w1] l1]
    end.
    + discriminate H.
    + destruct e0; cbn in H; inversion H; eexists; reflexivity.
  - intros H. unfold lacks_store_keys in H.
    unfold download_from_s3, try_except, bind, lift.
    destruct (subscript kwargs "scripts_bucket") as [b|e] eqn:Eb.
    + destruct (subscript kwargs "scripts_path") as [p|e] eqn:Ep.
      * destruct p; try discriminate H; cbn; eexists; reflexivity.
      * cbn. destruct e; eexists; reflexivity.
    + cbn. destruct e; eexists; reflexivity.
Qed.

(** X5: a fetched file is stored under a name made of the file name
    alone: neither the bucket nor the prefix is part of the local path,
    so the same parser name fetched from two places lands on one file. *)
Theorem download_from_s3_local_path :
  forall name kwargs bucket prefix w w1 l,
    subscript kwargs "scripts_bucket" = Ret bucket ->
    subscript kwargs "scripts_path" = Ret (JStr (prefix ++ "/")) ->
    has_slash name = false ->
    download_file env bucket (prefix ++ "/" ++ name ++ ".py")
      (temp_path env ("s3_download_" ++ name ++ ".py")) w = (Ret tt, w1, l) ->
    download_from_s3 env name kwargs w
    = (Ret (temp_path env ("s3_download_" ++ name ++ ".py")), w1,
       map plugin_entry l).
Proof.
  intros name kwargs bucket prefix w w1 l Hb Hp Hn Hd.
  rewrite (download_from_s3_fetch name kwargs bucket prefix w Hb Hp Hn).
  cbv zeta. rewrite Hd. reflexivity.
Qed.

(** X6: the base contract is fetched before the parser: when that fetch
    fails, the result is [None] in the world the failed fetch left, and
    neither the parser's file nor any module is touched. *)
Theorem load_parser_from_s3_base_contract_first :
  forall file class_name kwargs bucket prefix w e w1 l,
    subscript kwargs "scripts_bucket" = Ret bucket ->
    subscript kwargs "scripts_path" = Ret (JStr (prefix ++ "/")) ->
    download_file env bucket (prefix ++ "/" ++ "base_parser" ++ ".py")
      (temp_path env ("s3_download_" ++ "base_parser" ++ ".py")) w
    = (Raise e, w1, l) ->
    load_parser_from_s3 env file class_name kwargs w
    = (Ret None, w1,
       (map plugin_entry l ++ [EngineLog (MsgS3Unavailable file) false])%list).
Proof.
  intros file class_name kwargs bucket prefix w e w1 l Hb Hp Hd.
  unfold load_parser_from_s3, load_parser_from_s3_body, try_except.
  unfold bind at 1.
  rewrite (download_from_s3_fetch "base_parser" kwargs bucket prefix w Hb Hp
             eq_refl).
  cbv zeta. rewrite Hd. reflexivity.
Qed.

(** X7: when both fetches and the loading of the module succeed, the
    result is the attribute of the module named like the class, [None]
    when there is none; the module is loaded from the local path of the
    parser's file. *)
Theorem load_parser_from_s3_loaded :
  forall file class_name kwargs bucket prefix w w1 l1 w2 l2 w3 l3 module,
    subscript kwargs "scripts_bucket" = Ret bucket ->
    subscript kwargs "scripts_path" = Ret (JStr (prefix ++ "/")) ->
    has_slash file = false ->
    let local := temp_path env ("s3_download_" ++ file ++ ".py") in
    download_file env bucket (prefix ++ "/" ++ "base_parser" ++ ".py")
      (temp_path env ("s3_download_" ++ "base_parser" ++ ".py")) w
    = (Ret tt, w1, l1) ->
    download_file env bucket (prefix ++ "/" ++ file ++ ".py") local w1
    = (Ret tt, w2, l2) ->
    exec_module env ("s3_parser_" ++ str_replace ".py" "" (basename local))
      local w2 = (Ret module, w3, l3) ->
    load_parser_from_s3 env file class_name kwargs w
    = (Ret (module class_name), w3,
       (map plugin_entry l1 ++ map plugin_entry l2 ++ map plugin_entry l3 ++
        [EngineLog
           match module class_name with
           | Some _ => MsgS3Loaded file
           | None => MsgS3NotFound file (JStr (prefix ++ "/"))
           end false])%list).
Proof.
  intros file class_name kwargs bucket prefix w w1 l1 w2 l2 w3 l3 module
    Hb Hp Hn local Hd1 Hd2 He.
  unfold load_parser_from_s3, load_parser_from_s3_body, try_except.
  unfold bind at 1.
  rewrite (download_from_s3_fetch "base_parser" kwargs bucket prefix w Hb Hp
             eq_refl).
  cbv zeta. rewrite Hd1. unfold bind at 1.
  rewrite (download_from_s3_fetch file kwargs bucket prefix w1 Hb Hp Hn).
  cbv zeta. fold local. rewrite Hd2.
  unfold bind at 1, run_plugin at 1. rewrite He.
  destruct (module class_name) as [c|].
  - cbn. reflexivity.
  - unfold bind, lift, log. rewrite Hp. cbn. reflexivity.
Qed.

End RemoteStore.

(* ================================================================== *)
(** * Further properties: the job runner                               *)
(* ================================================================== *)

Lemma subscript_raises :
  forall v key e,
    subscript v key = Raise e ->
    (exists k, e = KeyError k) \/ (exists t, e = TypeError t).
Proof.
  intros v key e H. destruct v; cbn in H; try (inversion H; eauto; fail).
  destruct (lookup key d); inversion H; eauto.
Qed.

Lemma iterate_raises :
  forall v e, iterate v = Raise e -> exists t, e = TypeError t.
Proof.
  intros v e H. destruct v; cbn in H; inversion H; eauto.
Qed.

Section JobRunner.

Context {World : Type}.
Variable env : Env World.

Lemma run_job_of_loop :
  forall items w,
    run_job env (Ret (job_of items)) w =
    match for_each (run_transformation env) items w with
    | (Ret _, w', lg) =>
        (Ret tt, w',
         EngineLog MsgStarting false
           :: (lg ++ [EngineLog MsgJobCompleted false])%list)
    | (Raise e, w', lg) =>
        (Ret tt, w',
         EngineLog MsgStarting false
           :: (lg ++ [EngineLog
                        match e with
                        | FileNotFoundError _ => MsgDefinitionNotFound
                        | JSONDecodeError _ => MsgInvalidJSON e
                        | _ => MsgUnexpected e
                        end true])%list)
    end.
Proof.
  intros items w. unfold run_job, try_except, bind, lift, log. cbn.
  destruct (for_each (run_transformation env) items w) as [[[u|e] w'] lg].
  - reflexivity.
  - destruct e; reflexivity.
Qed.

(** An entry the loop cannot read raises before anything is logged or
    run. *)
Lemma run_transformation_malformed :
  forall t w,
    well_formed t = false ->
    exists e,
      run_transformation env t w = (Raise e, w, []) /\
      ((exists k, e = KeyError k) \/ (exists x, e = TypeError x)).
Proof.
  intros t w H. unfold well_formed in H.
  unfold run_transformation, bind, lift.
  destruct (subscript t "object") as [obj|e] eqn:Eo.
  - destruct (subscript obj "parser") as [op|e] eqn:Ep; [discriminate|].
    assert (Hk : exists options, dict_get t "kwargs" (JDict []) = Ret options).
    { destruct t; try discriminate Eo. unfold dict_get.
      destruct (lookup "kwargs" d); eauto. }
    destruct Hk as [options Hk]. rewrite Hk. cbv beta iota.
    exists e. split; [reflexivity|apply (subscript_raises _ _ _ Ep)].
  - exists e. split; [reflexivity|apply (subscript_raises _ _ _ Eo)].
Qed.



(** X9: when the definition cannot be read, or holds no iterable
    [transformations], the run ends with one error line, no outcome at
    all, and the world untouched. *)
Theorem run_job_fatal_errors :
  forall definition e w,
    entries_of definition = Raise e ->
    exists m,
      run_job env definition w =
      (Ret tt, w,
       (match definition with
        | Raise _ => []
        | Ret _ => [EngineLog MsgStarting false]
        end ++ [EngineLog m true])%list) /\
      outcomes (snd (run_job env definition w)) = [] /\
      (forall text, definition = Raise (FileNotFoundError text) ->
                    m = MsgDefinitionNotFound).
Proof.
  intros definition e w H. unfold entries_of in H.
  unfold run_job, try_except, bind, lift, log.
  destruct definition as [job|e0].
  - destruct (subscript job "transformations") as [ts|e1] eqn:Es.
    + apply iterate_raises in H as Hi. destruct Hi as [t ->].
      rewrite H. cbn. eexists. split; [reflexivity|]. split; [reflexivity|].
      intros text Ht. discriminate Ht.
    + inversion H; subst e1. cbn.
      destruct (subscript_raises _ _ _ Es) as [[k ->]|[t ->]]; cbn;
        eexists; (split; [reflexivity|]); (split; [reflexivity|]);
        intros text Ht; discriminate Ht.
  - inversion H; subst e0.
    destruct e; cbn; eexists; (split; [reflexivity|]);
      (split; [reflexivity|]); intros text' Ht; try reflexivity;
      inversion Ht.
Qed.


(** X11: the first entry the loop cannot read ends the run: the
    outcomes and the world are those of the entries before it, the
    entries after it are not run, and the last log line is the error of
    the catch-all handler. *)
Theorem run_job_stops_at_malformed_entry :
  forall before bad after w,
    forallb well_formed before = true ->
    well_formed bad = false ->
    let '(_, w_all, lg_all) :=
      run_job env (Ret (job_of (before ++ bad :: after))) w in
    let '(_, w_before, lg_before) :=
      run_job env (Ret (job_of before)) w in
    outcomes lg_all = outcomes lg_before /\
    length (outcomes lg_all) = length before /\
    w_all = w_before /\
    exists e, last lg_all (EngineLog MsgStarting false)
              = EngineLog (MsgUnexpected e) true.
Proof.
  intros before bad after w Hb Hbad.
  destruct (for_each_well_formed env before w Hb) as [w1 [lb [Fb Lb]]].
  destruct (run_transformation_malformed bad w1 Hbad) as [e [Hr He]].
  rewrite !run_job_of_loop.
  rewrite (for_each_app _ _ before (bad :: after) w w1 lb Fb).
  cbn [for_each]. unfold bind at 1. rewrite Hr, Fb.
  cbn [outcomes]. rewrite !outcomes_app, !app_nil_r. cbn [outcomes].
  assert (Hm : match e with
               | FileNotFoundError _ => MsgDefinitionNotFound
               | JSONDecodeError _ => MsgInvalidJSON e
               | _ => MsgUnexpected e
               end = MsgUnexpected e).
  { destruct He as [[k ->]|[t ->]]; reflexivity. }
  rewrite Hm. cbn [outcomes]. rewrite !app_nil_r.
  repeat split; try assumption.
  exists e. change (EngineLog MsgStarting false :: lb ++ [EngineLog (MsgUnexpected e) true])%list
    with ((EngineLog MsgStarting false :: lb) ++ [EngineLog (MsgUnexpected e) true])%list.
  apply last_last.
Qed.

End JobRunner.

(* ================================================================== *)
(** * Further properties: creation and dispatch                        *)
(* ================================================================== *)

Section Dispatch.

Context {World : Type}.
Variable env : Env World.

(** The executor once the parser is created. *)
Lemma execute_after_create :
  forall obj operation_name options w parser w1 l1,
    create_parser env obj options w = (Ret parser, w1, l1) ->
    execute_transformation env obj operation_name options w =
    match dispatch env parser operation_name options w1 with
    | (Ret success, w2, l2) => (Ret success, w2, (l1 ++ l2)%list)
    | (Raise e, w2, l2) =>
        (Ret false, w2,
         ((l1 ++ l2) ++ [EngineLog (MsgExecutionError e) true])%list)
    end.
Proof.
  intros obj op options w parser w1 l1 H.
  unfold execute_transformation, try_except, execute_transformation_body, bind.
  rewrite H.
  destruct (dispatch env parser op options w1) as [[[b|e] w2] l2]; reflexivity.
Qed.

(** The executor when creating the parser raises. *)
Lemma execute_after_create_raises :
  forall obj operation_name options w e w1 l1,
    create_parser env obj options w = (Raise e, w1, l1) ->
    execute_transformation env obj operation_name options w =
    (Ret false, w1, (l1 ++ [EngineLog (MsgExecutionError e) true])%list).
Proof.
  intros obj op options w e w1 l1 H.
  unfold execute_transformation, try_except, execute_transformation_body, bind.
  rewrite H. reflexivity.
Qed.

Lemma bind_call_ret_true :
  forall (a : attr World) args kwargs w,
    bind (call a args kwargs) (fun _ => ret true) w =
    match call a args kwargs w with
    | (Ret _, w2, l2) => (Ret true, w2, l2)
    | (Raise e, w2, l2) => (Raise e, w2, l2)
    end.
Proof.
  intros a args kwargs w. unfold bind.
  destruct (call a args kwargs w) as [[[v|e] w2] l2]; cbn;
    rewrite ?app_nil_r; reflexivity.
Qed.

(** X12: a parser without dispatcher that has a member named like the
    operation is run by calling that member with the options as keyword
    arguments, and the transformation succeeds whatever the member
    returns, the value [False] included; only a raise makes it fail. *)
Theorem direct_member_fallback :
  forall obj name kwargs w parser w1 l1 method,
    create_parser env obj (JDict kwargs) w = (Ret parser, w1, l1) ->
    parser <> ONone ->
    obj_getattr env parser "run_operation" = None ->
    obj_getattr env parser name = Some method ->
    (forall v w2 l2,
        call method [] kwargs w1 = (Ret v, w2, l2) ->
        execute_transformation env obj (JStr name) (JDict kwargs) w
        = (Ret true, w2, (l1 ++ l2)%list)) /\
    (forall e w2 l2,
        call method [] kwargs w1 = (Raise e, w2, l2) ->
        execute_transformation env obj (JStr name) (JDict kwargs) w
        = (Ret false, w2,
           ((l1 ++ l2) ++ [EngineLog (MsgExecutionError e) true])%list)).
Proof.
  intros obj name kwargs w parser w1 l1 method Hc Hn Hr Hm.
  rewrite (execute_after_create obj (JStr name) (JDict kwargs) w parser w1 l1 Hc).
  assert (Hd : dispatch env parser (JStr name) (JDict kwargs) w1 =
               match call method [] kwargs w1 with
               | (Ret _, w2, l2) => (Ret true, w2, l2)
               | (Raise e, w2, l2) => (Raise e, w2, l2)
               end).
  { unfold dispatch. destruct parser as [|b|members]; [congruence| |];
      rewrite Hr; unfold bind at 1, lift; cbn [attr_name]; cbv beta iota;
      rewrite Hm; unfold bind at 1, lift; cbn [unpack]; cbv beta iota;
      rewrite bind_call_ret_true;
      destruct (call method [] kwargs w1) as [[[v|e] w2] l2]; reflexivity. }
  rewrite Hd. split.
  - intros v w2 l2 H. rewrite H. reflexivity.
  - intros e w2 l2 H. rewrite H. reflexivity.
Qed.

(** X13: a parser without dispatcher and without a member named like the
    operation is run through [process], called without any argument:
    the options are not passed on.  The transformation succeeds unless
    [process] raises or is missing; and when the operation name is not a
    string it fails before anything is called. *)
Theorem default_process_fallback :
  forall obj operation_name options w parser w1 l1,
    create_parser env obj options w = (Ret parser, w1, l1) ->
    parser <> ONone ->
    obj_getattr env parser "run_operation" = None ->
    (forall name process,
        operation_name = JStr name ->
        obj_getattr env parser name = None ->
        obj_getattr env parser "process" = Some process ->
        execute_transformation env obj operation_name options w =
        match call process [] [] w1 with
        | (Ret _, w2, l2) => (Ret true, w2, (l1 ++ l2)%list)
        | (Raise e, w2, l2) =>
            (Ret false, w2,
             ((l1 ++ l2) ++ [EngineLog (MsgExecutionError e) true])%list)
        end) /\
    (forall name,
        operation_name = JStr name ->
        obj_getattr env parser name = None ->
        obj_getattr env parser "process" = None ->
        exists text,
          execute_transformation env obj operation_name options w =
          (Ret false, w1,
           (l1 ++ [EngineLog (MsgExecutionError (AttributeError text)) true])%list)) /\
    ((forall name, operation_name <> JStr name) ->
     exists text,
       execute_transformation env obj operation_name options w =
       (Ret false, w1,
        (l1 ++ [EngineLog (MsgExecutionError (TypeError text)) true])%list)).
Proof.
  intros obj op options w parser w1 l1 Hc Hn Hr.
  rewrite (execute_after_create obj op options w parser w1 l1 Hc).
  split; [|split].
  - intros name process -> Hm Hp.
    assert (Hd : dispatch env parser (JStr name) options w1 =
                 match call process [] [] w1 with
                 | (Ret _, w2, l2) => (Ret true, w2, l2)
                 | (Raise e, w2, l2) => (Raise e, w2, l2)
                 end).
    { unfold dispatch. destruct parser as [|b|members]; [congruence| |];
        rewrite Hr; unfold bind at 1, lift; cbn [attr_name]; cbv beta iota;
        rewrite Hm, Hp; rewrite bind_call_ret_true;
        destruct (call process [] [] w1) as [[[v|e] w2] l2]; reflexivity. }
    rewrite Hd.
    destruct (call process [] [] w1) as [[[v|e] w2] l2]; reflexivity.
  - intros name -> Hm Hp.
    assert (Hd : dispatch env parser (JStr name) options w1 =
                 (Raise (AttributeError "object has no attribute 'process'"),
                  w1, [])).
    { unfold dispatch. destruct parser as [|b|members]; [congruence| |];
        rewrite Hr; unfold bind at 1, lift; cbn [attr_name]; cbv beta iota;
        rewrite Hm, Hp; reflexivity. }
    rewrite Hd. rewrite app_nil_r. eexists. reflexivity.
  - intros Hs.
    assert (Hd : dispatch env parser op options w1 =
                 (Raise (TypeError "attribute name must be string"), w1, [])).
    { unfold dispatch.
      destruct parser as [|b|members]; [congruence| |];
        rewrite Hr; unfold bind at 1, lift;
        destruct op as [| | |name| |]; try reflexivity;
        exfalso; apply (Hs name); reflexivity. }
    rewrite Hd. rewrite app_nil_r. eexists. reflexivity.
Qed.

(** X14: for a parser that follows the base contract the executor does
    what [run_operation] does: an operation that is not declared
    available fails the transformation without running anything, and a
    declared one is called without arguments, so the options never reach
    it; the outcome is failure only when it returns [False] or raises. *)
Theorem execute_contract_instance :
  forall obj operation_name options w self w1 l1,
    create_parser env obj options w = (Ret (instance_of self), w1, l1) ->
    (is_available self operation_name = false ->
     exists text,
       execute_transformation env obj operation_name options w =
       (Ret false, w1,
        (l1 ++ [EngineLog (MsgExecutionError (ValueError text)) true])%list)) /\
    (is_available self operation_name = true ->
     forall method,
       callable_member self operation_name = Some method ->
       execute_transformation env obj operation_name options w =
       match method [] [] w1 with
       | (Ret result, w2, l2) =>
           (Ret (is_not_False result), w2, (l1 ++ map plugin_entry l2)%list)
       | (Raise e, w2, l2) =>
           (Ret false, w2,
            ((l1 ++ map plugin_entry l2)
               ++ [EngineLog (MsgExecutionError e) true])%list)
       end).
Proof.
  intros obj op options w self w1 l1 Hc.
  rewrite (execute_after_create obj op options w _ w1 l1 Hc).
  assert (Hd : dispatch env (instance_of self) op options w1 =
               match run_operation self op w1 with
               | (Ret result, w2, l2) =>
                   (Ret (is_not_False result), w2, map plugin_entry l2)
               | (Raise e, w2, l2) => (Raise e, w2, map plugin_entry l2)
               end).
  { rewrite (dispatch_run_operation env (instance_of self) op options _ w1
               eq_refl).
    unfold call, run_plugin.
    destruct (run_operation self op w1) as [[[v|e] w2] l2]; reflexivity. }
  rewrite Hd. unfold run_operation. split.
  - intros Ha. rewrite Ha. cbn. rewrite app_nil_r. eexists. reflexivity.
  - intros Ha method Hm. rewrite Ha, Hm. cbn [negb].
    destruct (method [] [] w1) as [[[v|e] w2] l2]; reflexivity.
Qed.

(** X15: a class name that is not a string makes [create_parser] raise
    [TypeError], neither [None] nor [False], before any registry is
    asked; the executor turns it into a failed outcome. *)
Theorem create_parser_class_name_not_string :
  forall obj operation_name options origin destiny class_name w,
    subscript obj "origin" = Ret (JStr origin) ->
    subscript obj "destiny" = Ret (JStr destiny) ->
    subscript obj "classname" = Ret class_name ->
    (forall s, class_name <> JStr s) ->
    exists text,
      create_parser env obj options w = (Raise (TypeError text), w, []) /\
      execute_transformation env obj operation_name options w =
      (Ret false, w, [EngineLog (MsgExecutionError (TypeError text)) true]).
Proof.
  intros obj op options origin destiny cn w Ho Hd Hc Hs.
  assert (Hr : resolve_paths obj w
               = (Ret (s3_to_local origin, s3_to_local destiny, cn), w, [])).
  { unfold resolve_paths, bind, lift. rewrite Ho. cbn.
    rewrite Hd. cbn. rewrite Hc. reflexivity. }
  assert (Hcp : create_parser env obj options w
                = (Raise (TypeError "expected string or bytes-like object"),
                   w, [])).
  { unfold create_parser. unfold bind at 1. unfold try_except, bind at 1.
    rewrite Hr. cbn.
    destruct cn as [| | |s| |]; try reflexivity.
    exfalso. apply (Hs s). reflexivity. }
  eexists. split; [exact Hcp|].
  rewrite (execute_after_create_raises obj op options w _ w [] Hcp).
  reflexivity.
Qed.



End Dispatch.

(* ================================================================== *)
(** * Further properties: the builtin parsers                          *)
(* ================================================================== *)

Section BuiltinParsers.

Context {World : Type}.
Variable os : OS World.

Ltac unfold_plug :=
  unfold plug_try, plug_bind, plug_log, plug_ret, plug_raise.

(** X18: [unzip] never raises: whatever the password and whatever the
    file system does, it returns [True] or [False]. *)
Theorem unzip_returns_boolean :
  forall source_file output_directory password w,
    exists b w' lg,
      ZipFileParser_unzip os source_file output_directory password w
      = (Ret (JBool b), w', lg).
Proof.
  intros src out password w. unfold ZipFileParser_unzip. unfold_plug.
  destruct (os_makedirs os out w) as [[[u|e] w1] l1]; [|cbn; eauto].
  destruct (zip_open os src w1) as [[[[|]|e] w2] l2]; [|cbn; eauto..].
  destruct (truthy password).
  - destruct password as [| | |pwd| |]; try (cbn; eauto; fail).
    destruct (zip_extractall os src out (Some pwd) w2)
      as [[[[|]|e] w3] l3]; cbn; eauto.
  - destruct (zip_extractall os src out None w2)
      as [[[[|]|e] w3] l3]; cbn; eauto.
Qed.

(** X19: without password, [unzip] returns [True] exactly when the
    output directory could be made, the archive opened and its content
    extracted; the world is then the one the extraction left and the log
    ends with the success line. *)
Theorem unzip_succeeds_iff :
  forall source_file output_directory w w' lg,
    ZipFileParser_unzip os source_file output_directory JNull w
    = (Ret (JBool true), w', lg) <->
    exists w1 l1 w2 l2 l3,
      os_makedirs os output_directory w = (Ret tt, w1, l1) /\
      zip_open os source_file w1 = (Ret ZipOk, w2, l2) /\
      zip_extractall os source_file output_directory None w2
      = (Ret ZipOk, w', l3) /\
      lg = (l1 ++ l2 ++ l3 ++
            [(("Successfully extracted ZIP file: " ++ source_file ++ " -> "
               ++ output_directory)%string, false)])%list.
Proof.
  intros src out w w' lg. unfold ZipFileParser_unzip. unfold_plug.
  cbn [truthy]. split.
  - intros H.
    destruct (os_makedirs os out w) as [[[[] |e] w1] l1] eqn:E1;
      [|cbn in H; inversion H].
    destruct (zip_open os src w1) as [[[[|]|e] w2] l2] eqn:E2;
      [|cbn in H; inversion H..].
    destruct (zip_extractall os src out None w2) as [[[[|]|e] w3] l3] eqn:E3;
      cbn in H; inversion H; subst.
    exists w1, l1, w2, l2, l3.
    split; [reflexivity|]. split; [exact E2|]. split; [exact E3|].
    reflexivity.
  - intros [w1 [l1 [w2 [l2 [l3 [H1 [H2 [H3 ->]]]]]]]].
    rewrite H1, H2, H3. cbn. rewrite ?app_nil_r. reflexivity.
Qed.

(** X20: when the archive cannot be opened, [unzip] returns [False]
    after the output directory has been made: the world is the one the
    failed opening left, nothing is extracted, and one error line is
    written. *)
Theorem unzip_unreadable_archive :
  forall source_file output_directory password w w1 l1 opened w2 l2,
    os_makedirs os output_directory w = (Ret tt, w1, l1) ->
    zip_open os source_file w1 = (opened, w2, l2) ->
    opened <> Ret ZipOk ->
    exists text,
      ZipFileParser_unzip os source_file output_directory password w
      = (Ret (JBool false), w2, (l1 ++ l2 ++ [(text, true)])%list).
Proof.
  intros src out password w w1 l1 opened w2 l2 H1 H2 Hne.
  unfold ZipFileParser_unzip. unfold_plug. rewrite H1, H2.
  destruct opened as [[|]|e]; [congruence| |]; cbn;
    rewrite ?app_nil_r, <- ?app_assoc; eexists; reflexivity.
Qed.

(** X21: a password that is empty or [None] is not used, and a password
    that is true but not a string makes [unzip] fail once the archive is
    open, without extracting anything. *)
Theorem unzip_password :
  forall source_file output_directory password w,
    (truthy password = false ->
     ZipFileParser_unzip os source_file output_directory password w
     = ZipFileParser_unzip os source_file output_directory JNull w) /\
    (truthy password = true ->
     (forall pwd, password <> JStr pwd) ->
     forall w1 l1 w2 l2,
       os_makedirs os output_directory w = (Ret tt, w1, l1) ->
       zip_open os source_file w1 = (Ret ZipOk, w2, l2) ->
       exists text,
         ZipFileParser_unzip os source_file output_directory password w
         = (Ret (JBool false), w2, (l1 ++ l2 ++ [(text, true)])%list)).
Proof.
  intros src out password w. split.
  - intros H. unfold ZipFileParser_unzip. cbn [truthy]. rewrite H.
    reflexivity.
  - intros H Hs w1 l1 w2 l2 H1 H2.
    unfold ZipFileParser_unzip. unfold_plug. rewrite H1, H2, H.
    destruct password as [| | |pwd| |];
      try (cbn; rewrite ?app_nil_r, <- ?app_assoc; eexists; reflexivity).
    exfalso. apply (Hs pwd). reflexivity.
Qed.

(** X22: [xml_to_csv] never raises: it returns [True] or [False]. *)
Theorem xml_to_csv_returns_boolean :
  forall source_file output_directory w,
    exists b w' lg,
      XmlToCsvParser_xml_to_csv os source_file output_directory w
      = (Ret (JBool b), w', lg).
Proof.
  intros src out w. unfold XmlToCsvParser_xml_to_csv. unfold_plug.
  destruct (xml_parse os src w) as [[[[root|text]|e] w1] l1];
    [|cbn; eauto..].
  destruct (os_makedirs os out w1) as [[[u|e] w2] l2]; [|cbn; eauto].
  destruct (open_write os (csv_path src out) w2) as [[[u'|e] w3] l3];
    [|cbn; eauto].
  destruct (xml_children root) as [|first rest]; [cbn; eauto|].
  destruct (write_rows os (csv_path src out)
              (csv_rows root) w3) as [[[u''|e] w4] l4]; cbn; eauto.
Qed.

(** X23: a document whose root has no child element gives [False], but
    only after the output directory has been made and the CSV file
    opened for writing: the file is created, or emptied, all the same. *)
Theorem xml_to_csv_empty_document :
  forall source_file output_directory w root w1 l1 w2 l2 w3 l3,
    xml_parse os source_file w = (Ret (Parsed root), w1, l1) ->
    xml_children root = [] ->
    os_makedirs os output_directory w1 = (Ret tt, w2, l2) ->
    open_write os (csv_path source_file output_directory) w2
    = (Ret tt, w3, l3) ->
    XmlToCsvParser_xml_to_csv os source_file output_directory w
    = (Ret (JBool false), w3,
       (l1 ++ l2 ++ l3 ++
        [(("Warning: XML file " ++ source_file
            ++ " has no data elements")%string, true)])%list).
Proof.
  intros src out w root w1 l1 w2 l2 w3 l3 Hp Hc Hm Ho.
  unfold XmlToCsvParser_xml_to_csv. unfold_plug.
  rewrite Hp, Hm, Ho, Hc. cbn. rewrite ?app_nil_r.
  reflexivity.
Qed.

Lemma csv_rows_length :
  forall root,
    xml_children root <> [] ->
    length (csv_rows root) = S (length (xml_children root)).
Proof.
  intros root H. unfold csv_rows.
  destruct (xml_children root) as [|first rest]; [congruence|].
  cbn [length]. rewrite length_map. reflexivity.
Qed.

(** X24: for a document with data elements the file receives one header
    row, the tags of the children of the first element, and one row per
    element; when every write returns the result is [True]. *)
Theorem xml_to_csv_writes_rows :
  forall source_file output_directory w root first rest
         w1 l1 w2 l2 w3 l3 w4 l4,
    xml_parse os source_file w = (Ret (Parsed root), w1, l1) ->
    xml_children root = first :: rest ->
    os_makedirs os output_directory w1 = (Ret tt, w2, l2) ->
    open_write os (csv_path source_file output_directory) w2
    = (Ret tt, w3, l3) ->
    write_rows os (csv_path source_file output_directory) (csv_rows root) w3
    = (Ret tt, w4, l4) ->
    XmlToCsvParser_xml_to_csv os source_file output_directory w
    = (Ret (JBool true), w4,
       (l1 ++ l2 ++ l3 ++ l4 ++
        [(("Successfully converted XML to CSV: " ++ source_file ++ " -> "
           ++ csv_path source_file output_directory)%string, false)])%list) /\
    hd [] (csv_rows root) = map xml_tag (xml_children first) /\
    length (csv_rows root) = S (length (xml_children root)).
Proof.
  intros src out w root first rest w1 l1 w2 l2 w3 l3 w4 l4 Hp Hc Hm Ho Hw.
  split; [|split].
  - unfold XmlToCsvParser_xml_to_csv. unfold_plug.
    rewrite Hp, Hm, Ho, Hc, Hw. cbn. rewrite ?app_nil_r. reflexivity.
  - unfold csv_rows. rewrite Hc. reflexivity.
  - apply csv_rows_length. rewrite Hc. discriminate.
Qed.

End BuiltinParsers.

Section BuiltinJobs.

Context {World : Type}.
Variable env : Env World.
Variable os : OS World.

Lemma execute_instance_of :
  forall obj operation_name options w self w1 l1,
    create_parser env obj options w = (Ret (instance_of self), w1, l1) ->
    execute_transformation env obj operation_name options w =
    match run_operation self operation_name w1 with
    | (Ret result, w2, l2) =>
        (Ret (is_not_False result), w2, (l1 ++ map plugin_entry l2)%list)
    | (Raise e, w2, l2) =>
        (Ret false, w2,
         ((l1 ++ map plugin_entry l2)
            ++ [EngineLog (MsgExecutionError e) true])%list)
    end.
Proof.
  intros obj op options w self w1 l1 Hc.
  rewrite (execute_after_create env obj op options w _ w1 l1 Hc).
  rewrite (dispatch_run_operation env (instance_of self) op options _ w1
             eq_refl).
  unfold call, run_plugin.
  destruct (run_operation self op w1) as [[[v|e] w2] l2]; reflexivity.
Qed.

Lemma create_builtin_zip :
  forall obj origin destiny kwargs w,
    (forall name, import_module env name = builtin_import os name) ->
    subscript obj "origin" = Ret (JStr origin) ->
    subscript obj "destiny" = Ret (JStr destiny) ->
    subscript obj "classname" = Ret (JStr "ZipFileParser") ->
    lookup "scripts_bucket" kwargs = None ->
    BaseParser_init kwargs = Ret tt ->
    create_parser env obj (JDict kwargs) w
    = (Ret (instance_of (ZipFileParser_self os (s3_to_local origin)
                           (s3_to_local destiny))), w,
       [EngineLog (MsgS3Unavailable "zip_file_parser") false;
        EngineLog (MsgLocalLoaded "zip_file_parser") false]).
Proof.
  intros obj origin destiny kwargs w Hi Ho Hd Hc Hb Hk.
  assert (Hs : subscript (JDict kwargs) "scripts_bucket"
               = Raise (KeyError "scripts_bucket")).
  { cbn [subscript]. rewrite Hb. reflexivity. }
  rewrite (create_parser_resolved env obj (JDict kwargs) origin destiny
             "ZipFileParser" w None w _ Ho Hd Hc
             (load_parser_from_s3_no_bucket env _ _ _ _ _ Hs)).
  change (camel_to_snake "ZipFileParser") with "zip_file_parser".
  unfold create_local, try_except, bind, log, run_plugin, lift.
  rewrite Hi.
  change (builtin_import os ("parsers." ++ "zip_file_parser") w)
    with (Ret (fun class_name : string =>
                 if class_name =? "ZipFileParser"
                 then Some (MClass (ZipFileParser os)) else None), w,
          @nil (string * bool)).
  cbn [String.eqb Ascii.eqb Bool.eqb unpack call_class ZipFileParser construct].
  cbv beta iota. cbn [String.eqb Ascii.eqb Bool.eqb].
  cbn [call_class ZipFileParser construct]. unfold run_plugin.
  rewrite Hk. reflexivity.
Qed.

(** X25: a job entry for the builtin [ZipFileParser], resolved locally,
    succeeds exactly when [unzip] without password returns [True]: the
    options, a password included, never reach the extraction; and any
    operation name other than [unzip], [process] included, fails the
    transformation without touching the world. *)
Theorem zip_job_runs_unzip_only :
  forall obj origin destiny kwargs operation_name w,
    (forall name, import_module env name = builtin_import os name) ->
    subscript obj "origin" = Ret (JStr origin) ->
    subscript obj "destiny" = Ret (JStr destiny) ->
    subscript obj "classname" = Ret (JStr "ZipFileParser") ->
    lookup "scripts_bucket" kwargs = None ->
    BaseParser_init kwargs = Ret tt ->
    (operation_name = JStr "unzip" ->
     exists b w' l lg,
       ZipFileParser_unzip os (s3_to_local origin) (s3_to_local destiny)
         JNull w = (Ret (JBool b), w', l) /\
       execute_transformation env obj operation_name (JDict kwargs) w
       = (Ret b, w', lg)) /\
    (operation_name <> JStr "unzip" ->
     exists lg,
       execute_transformation env obj operation_name (JDict kwargs) w
       = (Ret false, w, lg)).
Proof.
  intros obj origin destiny kwargs op w Hi Ho Hd Hc Hb Hk.
  pose proof (create_builtin_zip obj origin destiny kwargs w Hi Ho Hd Hc Hb Hk)
    as Hcp.
  rewrite (execute_instance_of obj op (JDict kwargs) w _ _ _ Hcp).
  split.
  - intros ->.
    destruct (unzip_returns_boolean os (s3_to_local origin)
                (s3_to_local destiny) JNull w) as [b [w' [l Hu]]].
    exists b, w', l. eexists. split; [exact Hu|].
    unfold run_operation. cbn.
    unfold ZipFileParser_process, nullary in *. rewrite Hu.
    destruct b; reflexivity.
  - intros Hne. unfold run_operation.
    assert (Ha : is_available (ZipFileParser_self os (s3_to_local origin)
                                 (s3_to_local destiny)) op = false).
    { destruct op as [| | |name| |]; try reflexivity.
      cbn. destruct (String.eqb_spec name "unzip") as [->|]; [congruence|].
      reflexivity. }
    rewrite Ha. cbn. eexists. reflexivity.
Qed.

End BuiltinJobs.

(* ================================================================== *)
(** * Concrete runs of the further properties                          *)
(* ================================================================== *)

Lemma s3_to_local_removes_scheme_witness :
  s3_to_local "s3/bucket/a.zip" = "s3/bucket/a.zip".
Proof.
  apply (proj2 (proj2 (proj2 (s3_to_local_removes_scheme "s3/bucket/a.zip")))).
  reflexivity.
Defined.

Lemma download_from_s3_failures_witness :
  exists text,
    download_from_s3 (demo_env true) "legacy_parser"
      (JDict [("scripts_bucket", JStr "scripts")]) []
    = (Raise (OtherError text), [], []).
Proof.
  apply (proj2 (download_from_s3_failures (demo_env true) "legacy_parser"
                  (JDict [("scripts_bucket", JStr "scripts")]) [])).
  reflexivity.
Defined.

Lemma download_from_s3_local_path_witness :
  download_from_s3 (demo_env true) "legacy_parser" (JDict remote_options) []
  = (Ret (temp_path (demo_env true) ("s3_download_" ++ "legacy_parser" ++ ".py")),
     [], map plugin_entry []).
Proof.
  apply (download_from_s3_local_path (demo_env true) "legacy_parser"
           (JDict remote_options) (JStr "scripts") "plugins" [] [] []);
    reflexivity.
Defined.

Lemma load_parser_from_s3_base_contract_first_witness :
  load_parser_from_s3 (demo_env true) "legacy_parser" "LegacyParser"
    (JDict [("scripts_bucket", JStr "elsewhere");
            ("scripts_path", JStr "plugins/")]) []
  = (Ret None, [],
     (map plugin_entry []
        ++ [EngineLog (MsgS3Unavailable "legacy_parser") false])%list).
Proof.
  apply (load_parser_from_s3_base_contract_first (demo_env true)
           "legacy_parser" "LegacyParser" _ (JStr "elsewhere") "plugins" []
           (ClientError "An error occurred (404)") [] []);
    reflexivity.
Defined.

Lemma load_parser_from_s3_loaded_witness :
  exists lg,
    load_parser_from_s3 (demo_env true) "legacy_parser" "LegacyParser"
      (JDict remote_options) []
    = (Ret (module_of "LegacyParser" LegacyParser "LegacyParser"), [], lg).
Proof.
  eexists.
  apply (load_parser_from_s3_loaded (demo_env true) "legacy_parser"
           "LegacyParser" (JDict remote_options) (JStr "scripts") "plugins"
           [] [] [] [] [] [] []
           (module_of "LegacyParser" LegacyParser));
    reflexivity.
Defined.

Lemma run_job_fatal_errors_witness :
  exists m,
    run_job (demo_env true) (Raise (FileNotFoundError "job_definition.json")) []
    = (Ret tt, [], ([] ++ [EngineLog m true])%list) /\
    outcomes (snd (run_job (demo_env true)
                     (Raise (FileNotFoundError "job_definition.json")) [])) = [] /\
    (forall text,
        Raise (FileNotFoundError "job_definition.json")
        = Raise (A := json) (FileNotFoundError text) ->
        m = MsgDefinitionNotFound).
Proof.
  apply (run_job_fatal_errors (demo_env true)
           (Raise (FileNotFoundError "job_definition.json"))
           (FileNotFoundError "job_definition.json") []).
  reflexivity.
Defined.


Lemma run_job_stops_at_malformed_entry_witness :
  let '(_, w_all, lg_all) :=
    run_job (demo_env true)
      (Ret (job_of ([make_entry] ++ keyless_entry :: [check_entry]))) [] in
  let '(_, w_before, lg_before) :=
    run_job (demo_env true) (Ret (job_of [make_entry])) [] in
  outcomes lg_all = outcomes lg_before /\
  length (outcomes lg_all) = length [make_entry] /\
  w_all = w_before /\
  exists e, last lg_all (EngineLog MsgStarting false)
            = EngineLog (MsgUnexpected e) true.
Proof.
  apply (run_job_stops_at_malformed_entry (demo_env true)
           [make_entry] keyless_entry [check_entry] []);
    reflexivity.
Defined.

Lemma direct_member_fallback_witness :
  exists w2 lg,
    execute_transformation (demo_env true) legacy_object (JStr "process")
      (JDict []) []
    = (Ret true, w2, lg).
Proof.
  edestruct (direct_member_fallback (demo_env true) legacy_object "process"
               [] []) as [H _];
    [reflexivity|discriminate|reflexivity|reflexivity|].
  do 2 eexists. eapply H. reflexivity.
Defined.

Lemma default_process_fallback_witness :
  exists r,
    execute_transformation (demo_env true) legacy_object (JStr "convert")
      (JDict []) [] = r /\ fst (fst r) = Ret true.
Proof.
  edestruct (default_process_fallback (demo_env true) legacy_object
               (JStr "convert") (JDict []) []) as [H _];
    [reflexivity|discriminate|reflexivity|].
  eexists. split.
  - apply (H "convert"); reflexivity.
  - reflexivity.
Defined.

Lemma execute_contract_instance_witness :
  exists text lg,
    execute_transformation (demo_env true) make_object (JStr "process")
      (JDict []) []
    = (Ret false, [],
       (lg ++ [EngineLog (MsgExecutionError (ValueError text)) true])%list).
Proof.
  edestruct (execute_contract_instance (demo_env true) make_object
               (JStr "process") (JDict []) []) as [H _]; [reflexivity|].
  destruct H as [text H]; [reflexivity|].
  exists text. eexists. exact H.
Defined.

Lemma create_parser_class_name_not_string_witness :
  exists text,
    create_parser (demo_env true) numeric_class_object (JDict []) []
    = (Raise (TypeError text), [], []) /\
    execute_transformation (demo_env true) numeric_class_object
      (JStr "process") (JDict []) []
    = (Ret false, [], [EngineLog (MsgExecutionError (TypeError text)) true]).
Proof.
  apply (create_parser_class_name_not_string (demo_env true)
           numeric_class_object (JStr "process") (JDict [])
           "s3://in/a" "s3://out/a" (JNum 5) []);
    try reflexivity.
  intros s H. discriminate H.
Defined.



Lemma unzip_succeeds_iff_witness :
  exists w' lg,
    ZipFileParser_unzip demo_os "s3/in/a.zip" "s3/out" JNull ["s3/in/a.zip"]
    = (Ret (JBool true), w', lg).
Proof.
  do 2 eexists.
  apply (proj2 (unzip_succeeds_iff demo_os "s3/in/a.zip" "s3/out"
                  ["s3/in/a.zip"] _ _)).
  do 5 eexists. repeat split; reflexivity.
Defined.

Lemma unzip_unreadable_archive_witness :
  exists text,
    ZipFileParser_unzip demo_os "s3/in/a.zip" "s3/out" JNull []
    = (Ret (JBool false), ["s3/out"], ([] ++ [] ++ [(text, true)])%list).
Proof.
  apply (unzip_unreadable_archive demo_os "s3/in/a.zip" "s3/out" JNull []
           ["s3/out"] [] (Raise (FileNotFoundError "s3/in/a.zip")) ["s3/out"] []).
  - reflexivity.
  - reflexivity.
  - discriminate.
Defined.

Lemma unzip_password_witness :
  ZipFileParser_unzip demo_os "s3/in/a.zip" "s3/out" (JStr "") ["s3/in/a.zip"]
  = ZipFileParser_unzip demo_os "s3/in/a.zip" "s3/out" JNull ["s3/in/a.zip"].
Proof.
  apply (proj1 (unzip_password demo_os "s3/in/a.zip" "s3/out" (JStr "")
                  ["s3/in/a.zip"])).
  reflexivity.
Defined.

Lemma xml_to_csv_empty_document_witness :
  exists lg,
    XmlToCsvParser_xml_to_csv demo_os "s3/in/empty.xml" "s3/out"
      ["s3/in/empty.xml"]
    = (Ret (JBool false),
       ["s3/out/empty.csv"; "s3/out"; "s3/in/empty.xml"], lg).
Proof.
  eexists.
  apply (xml_to_csv_empty_document demo_os "s3/in/empty.xml" "s3/out"
           ["s3/in/empty.xml"] empty_root ["s3/in/empty.xml"] []
           ["s3/out"; "s3/in/empty.xml"] []
           ["s3/out/empty.csv"; "s3/out"; "s3/in/empty.xml"] []);
    reflexivity.
Defined.

Lemma xml_to_csv_writes_rows_witness :
  hd [] (csv_rows demo_root) = ["id"; "name"] /\
  length (csv_rows demo_root) = 3.
Proof.
  edestruct (xml_to_csv_writes_rows demo_os "s3/in/a.xml" "s3/out"
               ["s3/in/a.xml"] demo_root) as [_ [H1 H2]];
    [reflexivity|reflexivity|reflexivity|reflexivity|reflexivity|].
  split; [exact H1|exact H2].
Defined.

Lemma zip_job_runs_unzip_only_witness :
  exists lg,
    execute_transformation builtin_env zip_object (JStr "process")
      (JDict [("password", JStr "secret")]) ["s3/in/a.zip"]
    = (Ret false, ["s3/in/a.zip"], lg).
Proof.
  apply (proj2 (zip_job_runs_unzip_only builtin_env demo_os zip_object
                  "s3://in/a.zip" "s3://out" [("password", JStr "secret")]
                  (JStr "process") ["s3/in/a.zip"]
                  (fun _ => eq_refl) eq_refl eq_refl eq_refl eq_refl eq_refl)).
  discriminate.
Defined.
